(** * deepcell-tf: container build recipe and notebook glue code

    A shallow embedding of the two pieces of code the repository ships
    besides the library itself:

    - [Dockerfile]: the build recipe, transcribed instruction by
      instruction and run by a small image builder;
    - the tracking-training notebook: directory set-up, the search for
      the maximal movie dimensions and the zero padding of movies. *)

From Stdlib Require Import List String Ascii ZArith NArith Lia Bool Arith PeanoNat DecimalString Sorted.
From Stdlib Require Import Permutation DecimalZ.
Import ListNotations.
Open Scope string_scope.
Open Scope list_scope.

Set Implicit Arguments.

(** ** Text: the string operations used by the shell tools and by Python *)

Module Text.

(** [contains pat s]: [pat] occurs in [s] (Python [pat in s], and what a
    sed address [/pat/] matches when [pat] has no regex operator). *)
Fixpoint contains (pat s : string) : bool :=
  prefix pat s ||
  match s with
  | EmptyString => false
  | String _ s' => contains pat s'
  end.

Definition starts_with (p s : string) : bool := prefix p s.

Fixpoint ends_with_char (c : ascii) (s : string) : bool :=
  match s with
  | EmptyString => false
  | String a EmptyString => Ascii.eqb a c
  | String _ s' => ends_with_char c s'
  end.

(** [s.rstrip(c)] *)
Fixpoint rstrip_char (c : ascii) (s : string) : string :=
  match s with
  | EmptyString => EmptyString
  | String a s' =>
      match rstrip_char c s' with
      | EmptyString => if Ascii.eqb a c then EmptyString else String a EmptyString
      | r => String a r
      end
  end.

(** [s.split(c)]: the pieces between the occurrences of [c]; never empty. *)
Fixpoint split_char (c : ascii) (s : string) : list string :=
  match s with
  | EmptyString => [EmptyString]
  | String a s' =>
      if Ascii.eqb a c then EmptyString :: split_char c s'
      else match split_char c s' with
           | [] => [String a EmptyString]
           | w :: ws => String a w :: ws
           end
  end.

(** [c.join(ws)] *)
Fixpoint join_char (c : ascii) (ws : list string) : string :=
  match ws with
  | [] => EmptyString
  | [w] => w
  | w :: ws' => w ++ String c (join_char c ws')
  end.

(** [s[n:]] *)
Fixpoint drop (n : nat) (s : string) : string :=
  match n, s with
  | O, _ => s
  | S n', String _ s' => drop n' s'
  | S _, EmptyString => EmptyString
  end.

Definition slash : ascii := "/"%char.

(** A file name: no slash in it. *)
Definition slash_free (s : string) : Prop := contains "/" s = false.

(** Last path component: the text after the last slash. *)
Definition basename (p : string) : string := last (split_char slash p) EmptyString.

End Text.

(** ** The Dockerfile *)

Module Docker.

(** A word of an instruction line: literal text and [${NAME}] references. *)
Inductive fragment : Type :=
| Lit (s : string)
| Ref (name : string).

Definition template := list fragment.

(** Shell text of a RUN instruction.  A simple command is its list of
    words (leading [NAME=value] assignments included), a pipeline is
    [c1 | c2 | ...], a script is [p1 && p2 && ...], possibly guarded by
    [if test; then ...; fi]. *)
Definition simple_command := list string.
Definition pipeline := list simple_command.

Inductive shell : Type :=
| AndList (ps : list pipeline)
| IfThen (test : simple_command) (body : list pipeline).

Inductive instruction : Type :=
| ARG (name default : string)
| FROM (image : template)
| RUN (script : shell)
| COPY (srcs : list string) (dst : string)
| WORKDIR (dir : string)
| CMD (argv : list string).

Definition cmd1 (c : simple_command) : pipeline := [c].

(** src/Dockerfile, lines 4 to 69 (comment lines left out). *)
Definition Dockerfile : list instruction :=
  [ ARG "TF_VERSION" "1.15.0-gpu";
    FROM [Lit "tensorflow/tensorflow:"; Ref "TF_VERSION"; Lit "-py3"];
    RUN (AndList
      [ cmd1 ["apt-get"; "update"];
        cmd1 ["DEBIAN_FRONTEND=noninteractive"; "apt-get"; "install"; "-y";
              "python3-tk"; "git"; "libsm6"];
        cmd1 ["rm"; "-rf"; "/var/lib/apt/lists/*"];
        cmd1 ["/usr/local/bin/pip"; "install"; "--upgrade"; "pip"] ]);
    COPY ["setup.py"; "requirements.txt"] "/opt/deepcell-tf/";
    RUN (AndList
      [ cmd1 ["sed"; "-i"; "/tensorflow/d"; "/opt/deepcell-tf/requirements.txt"];
        cmd1 ["pip"; "install"; "-r"; "/opt/deepcell-tf/requirements.txt"] ]);
    COPY ["deepcell"] "/opt/deepcell-tf/deepcell";
    RUN (AndList
      [ cmd1 ["pip"; "install"; "/opt/deepcell-tf"];
        cmd1 ["cd"; "/opt/deepcell-tf"];
        cmd1 ["python"; "setup.py"; "build_ext"; "--inplace"] ]);
    RUN (AndList
      [ cmd1 ["pip"; "install"; "--upgrade";
              "git+https://github.com/keras-team/keras-applications.git"] ]);
    RUN (AndList
      [ [ ["curl"; "https://packages.cloud.google.com/apt/doc/apt-key.gpg"];
          ["apt-key"; "add"; "-"] ] ]);
    RUN (AndList
      [ [ ["echo"; "deb https://packages.cloud.google.com/apt coral-edgetpu-stable main"];
          ["tee"; "/etc/apt/sources.list.d/coral-edgetpu.list"] ] ]);
    RUN (AndList [ cmd1 ["apt-get"; "update"] ]);
    RUN (AndList [ cmd1 ["apt-get"; "install"; "-y"; "libedgetpu1-std"] ]);
    RUN (AndList [ cmd1 ["mkdir"; "/coral"] ]);
    WORKDIR "/coral";
    RUN (AndList [ cmd1 ["git"; "clone"; "https://github.com/google-coral/tflite.git"] ]);
    RUN (AndList
      [ cmd1 ["pip"; "install";
              "https://dl.google.com/coral/python/tflite_runtime-2.1.0.post1-cp36-cp36m-linux_x86_64.whl"] ]);
    WORKDIR "/coral/tflite/python/examples/classification";
    RUN (AndList [ cmd1 ["./install_requirements.sh"] ]);
    WORKDIR "/notebooks";
    RUN (IfThen ["["; "-n"; "$(find /notebooks/ -prune)"; "]"]
      [ cmd1 ["mkdir"; "-p"; "/notebooks/intro_to_tensorflow"];
        [ ["ls"; "-d"; "/notebooks/*"];
          ["grep"; "-v"; "intro_to_tensorflow"];
          ["xargs"; "-r"; "mv"; "-t"; "/notebooks/intro_to_tensorflow"] ] ]);
    COPY ["scripts/"] "/notebooks/";
    CMD ["jupyter"; "notebook"; "--ip=0.0.0.0"; "--allow-root"] ].

(** *** The image builder *)

(** Files are kept by path, each as its list of lines; the entry nearest
    the head is the current one. *)
Definition files := list (string * list string).

Definition lookup_file (p : string) (fs : files) : option (list string) :=
  option_map snd (find (fun e => String.eqb (fst e) p) fs).

Definition lookup_arg (n : string) (env : list (string * string)) : option string :=
  option_map snd (find (fun e => String.eqb (fst e) n) env).

(** What the build takes from the image named by FROM. *)
Record base_image : Type := {
  base_entrypoint : list string;
  base_cmd : list string;
  base_workdir : string;
  base_dirs : list string
}.

(** What the build does, in order, as far as packages are concerned. *)
Inductive event : Type :=
| AptUpdate
| AptInstall (pkgs : list string)
| PipRequirements (file : string) (lines : list string)
| PipInstall (target : string)
| Exec (argv : list string).

Record image : Type := {
  img_args : list (string * string);
  img_from : option string;
  img_entrypoint : list string;
  img_cmd : list string;
  img_workdir : string;
  img_dirs : list string;
  img_files : files;
  img_log : list event
}.

Definition scratch : image :=
  {| img_args := []; img_from := None; img_entrypoint := []; img_cmd := [];
     img_workdir := "/"; img_dirs := []; img_files := []; img_log := [] |}.

Definition log (e : event) (st : image) : image :=
  {| img_args := img_args st; img_from := img_from st;
     img_entrypoint := img_entrypoint st; img_cmd := img_cmd st;
     img_workdir := img_workdir st; img_dirs := img_dirs st;
     img_files := img_files st; img_log := img_log st ++ [e] |}.

Definition write_files (new : files) (st : image) : image :=
  {| img_args := img_args st; img_from := img_from st;
     img_entrypoint := img_entrypoint st; img_cmd := img_cmd st;
     img_workdir := img_workdir st; img_dirs := img_dirs st;
     img_files := new ++ img_files st; img_log := img_log st |}.

Definition add_dirs (ds : list string) (st : image) : image :=
  {| img_args := img_args st; img_from := img_from st;
     img_entrypoint := img_entrypoint st; img_cmd := img_cmd st;
     img_workdir := img_workdir st; img_dirs := ds ++ img_dirs st;
     img_files := img_files st; img_log := img_log st |}.

Definition expand (env : list (string * string)) (t : template) : string :=
  concat EmptyString
    (map (fun f => match f with
                   | Lit s => s
                   | Ref n => match lookup_arg n env with Some v => v | None => EmptyString end
                   end) t).

Definition is_option (w : string) : bool := Text.starts_with "-" w.
Definition is_assignment (w : string) : bool :=
  Text.contains "=" w && negb (is_option w).

Fixpoint strip_assignments (c : simple_command) : simple_command :=
  match c with
  | w :: c' => if is_assignment w then strip_assignments c' else c
  | [] => []
  end.

(** [strip_suffix suf s = Some t] when [s = t ++ suf]. *)
Fixpoint strip_suffix (suf s : string) : option string :=
  if String.eqb s suf then Some EmptyString
  else match s with
       | EmptyString => None
       | String a s' => option_map (String a) (strip_suffix suf s')
       end.

Definition regex_operators : list ascii :=
  ["."; "["; "]"; "*"; "^"; "$"; "\"]%char.

Definition literal_pattern (pat : string) : bool :=
  forallb (fun c => negb (existsb (Ascii.eqb c) regex_operators))
          (list_ascii_of_string pat).

(** A sed script [/pat/d] whose [pat] is plain text. *)
Definition parse_sed_delete (script : string) : option string :=
  match script with
  | String c rest =>
      if Ascii.eqb c Text.slash then
        match strip_suffix "/d" rest with
        | Some pat => if literal_pattern pat then Some pat else None
        | None => None
        end
      else None
  | EmptyString => None
  end.

(** [sed "/pat/d"]: the lines that do not match [pat], in order. *)
Definition sed_delete (pat : string) (lines : list string) : list string :=
  filter (fun l => negb (Text.contains pat l)) lines.

(** The arguments of [pip install]: [-r file] reads the requirement
    lines of [file] as it is in the image at that moment, any other
    option is skipped, any other word is a target. *)
Fixpoint pip_install (args : list string) (st : image) : option image :=
  match args with
  | [] => Some st
  | a :: rest =>
      if String.eqb a "-r" then
        match rest with
        | f :: rest' =>
            match lookup_file f (img_files st) with
            | Some lines => pip_install rest' (log (PipRequirements f lines) st)
            | None => None
            end
        | [] => None
        end
      else if is_option a then pip_install rest st
      else pip_install rest (log (PipInstall a) st)
  end.

Definition exec_simple (c : simple_command) (st : image) : option image :=
  match strip_assignments c with
  | [] => Some st
  | prog :: args =>
      if String.eqb prog "apt-get" then
        match args with
        | sub :: args' =>
            if String.eqb sub "install"
            then Some (log (AptInstall (filter (fun w => negb (is_option w)) args')) st)
            else if String.eqb sub "update" then Some (log AptUpdate st)
            else Some (log (Exec (prog :: args)) st)
        | [] => Some (log (Exec [prog]) st)
        end
      else if String.eqb prog "pip" || String.eqb prog "/usr/local/bin/pip" then
        match args with
        | sub :: args' =>
            if String.eqb sub "install" then pip_install args' st
            else Some (log (Exec (prog :: args)) st)
        | [] => Some (log (Exec [prog]) st)
        end
      else if String.eqb prog "sed" then
        match args with
        | [flag; script; file] =>
            match String.eqb flag "-i", parse_sed_delete script,
                  lookup_file file (img_files st) with
            | true, Some pat, Some lines =>
                Some (log (Exec (prog :: args))
                          (write_files [(file, sed_delete pat lines)] st))
            | _, _, _ => None
            end
        | _ => None
        end
      else if String.eqb prog "mkdir" then
        Some (log (Exec (prog :: args))
                  (add_dirs (filter (fun w => negb (is_option w)) args) st))
      else Some (log (Exec (prog :: args)) st)
  end.

Fixpoint exec_pipeline (p : pipeline) (st : image) : option image :=
  match p with
  | [] => Some st
  | c :: p' =>
      match exec_simple c st with
      | Some st' => exec_pipeline p' st'
      | None => None
      end
  end.

Fixpoint exec_and_list (ps : list pipeline) (st : image) : option image :=
  match ps with
  | [] => Some st
  | p :: ps' =>
      match exec_pipeline p st with
      | Some st' => exec_and_list ps' st'
      | None => None
      end
  end.

(** [[ -n "$(find D -prune)" ]]: find prints [D] when it exists. *)
Definition eval_test (t : simple_command) (st : image) : option bool :=
  match t with
  | [lb; flag; subst; rb] =>
      if String.eqb lb "[" && String.eqb flag "-n" && String.eqb rb "]" then
        match strip_suffix " -prune)" subst with
        | Some head =>
            if Text.starts_with "$(find " head then
              let d := Text.rstrip_char Text.slash (Text.drop 7 head) in
              Some (existsb (String.eqb d) (img_dirs st))
            else None
        | None => None
        end
      else None
  | _ => None
  end.

Definition exec_shell (s : shell) (st : image) : option image :=
  match s with
  | AndList ps => exec_and_list ps st
  | IfThen t body =>
      match eval_test t st with
      | Some true => exec_and_list body st
      | Some false => Some st
      | None => None
      end
  end.

(** One source of a COPY: a file of the build context, or every file
    under a directory of it.  The context is given by its files, so a
    source that names none of them does not exist. *)
Definition copy_src (context : files) (dst src : string) : option files :=
  match lookup_file src context with
  | Some content =>
      Some [(if Text.ends_with_char Text.slash dst
             then (dst ++ Text.basename src)%string else dst, content)]
  | None =>
      let dir := (Text.rstrip_char Text.slash src ++ "/")%string in
      match filter (fun e => Text.starts_with dir (fst e)) context with
      | [] => None
      | under =>
          Some (map (fun e => ((Text.rstrip_char Text.slash dst ++ "/"
                                  ++ Text.drop (String.length dir) (fst e))%string,
                               snd e))
                    under)
      end
  end.

Fixpoint copy_srcs (context : files) (dst : string) (srcs : list string)
    (st : image) : option image :=
  match srcs with
  | [] => Some st
  | s :: srcs' =>
      match copy_src context dst s with
      | Some new => copy_srcs context dst srcs' (write_files new st)
      | None => None
      end
  end.

Section Build.

(** The registry, the [--build-arg] values and the build context. *)
Variable pull : string -> option base_image.
Variable build_args : list (string * string).
Variable context : files.

Definition exec_instruction (i : instruction) (st : image) : option image :=
  match i with
  | ARG name default =>
      let v := match lookup_arg name build_args with
               | Some v => v
               | None => default
               end in
      Some {| img_args := (name, v) :: img_args st; img_from := img_from st;
              img_entrypoint := img_entrypoint st; img_cmd := img_cmd st;
              img_workdir := img_workdir st; img_dirs := img_dirs st;
              img_files := img_files st; img_log := img_log st |}
  | FROM t =>
      let ref := expand (img_args st) t in
      match pull ref with
      | Some b =>
          Some {| img_args := img_args st; img_from := Some ref;
                  img_entrypoint := base_entrypoint b; img_cmd := base_cmd b;
                  img_workdir := base_workdir b; img_dirs := base_dirs b;
                  img_files := []; img_log := [] |}
      | None => None
      end
  | RUN s =>
      match img_from st with
      | Some _ => exec_shell s st
      | None => None
      end
  | COPY srcs dst => copy_srcs context dst srcs st
  | WORKDIR d =>
      let d' := if Text.starts_with "/" d then d
                else (Text.rstrip_char Text.slash (img_workdir st) ++ "/" ++ d)%string in
      Some {| img_args := img_args st; img_from := img_from st;
              img_entrypoint := img_entrypoint st; img_cmd := img_cmd st;
              img_workdir := d'; img_dirs := d' :: img_dirs st;
              img_files := img_files st; img_log := img_log st |}
  | CMD argv =>
      Some {| img_args := img_args st; img_from := img_from st;
              img_entrypoint := img_entrypoint st; img_cmd := argv;
              img_workdir := img_workdir st; img_dirs := img_dirs st;
              img_files := img_files st; img_log := img_log st |}
  end.

Fixpoint exec_instructions (ins : list instruction) (st : image) : option image :=
  match ins with
  | [] => Some st
  | i :: ins' =>
      match exec_instruction i st with
      | Some st' => exec_instructions ins' st'
      | None => None
      end
  end.

Definition build : option image := exec_instructions Dockerfile scratch.

End Build.

(** [docker run image [command...]]: the entry point followed by the
    given command, or by the image's CMD when none is given. *)
Definition container_argv (img : image) (command : option (list string)) : list string :=
  img_entrypoint img ++
  match command with
  | Some c => c
  | None => img_cmd img
  end.

(** *** Reading the build log *)

(** The image reference of the FROM line for given build arguments. *)
Definition tag_of (args : list (string * string)) : string :=
  ("tensorflow/tensorflow:" ++
   match lookup_arg "TF_VERSION" args with Some v => v | None => "1.15.0-gpu" end
   ++ "-py3")%string.

(** The log of a finished build, [reqs] being the lines of the
    requirements file as COPY put it in the image. *)
Definition build_log (reqs : list string) : list event :=
  [AptUpdate; AptInstall ["python3-tk"; "git"; "libsm6"];
   Exec ["rm"; "-rf"; "/var/lib/apt/lists/*"];
   PipInstall "pip";
   Exec ["sed"; "-i"; "/tensorflow/d"; "/opt/deepcell-tf/requirements.txt"];
   PipRequirements "/opt/deepcell-tf/requirements.txt" (sed_delete "tensorflow" reqs);
   PipInstall "/opt/deepcell-tf"; Exec ["cd"; "/opt/deepcell-tf"];
   Exec ["python"; "setup.py"; "build_ext"; "--inplace"];
   PipInstall "git+https://github.com/keras-team/keras-applications.git";
   Exec ["curl"; "https://packages.cloud.google.com/apt/doc/apt-key.gpg"];
   Exec ["apt-key"; "add"; "-"];
   Exec ["echo"; "deb https://packages.cloud.google.com/apt coral-edgetpu-stable main"];
   Exec ["tee"; "/etc/apt/sources.list.d/coral-edgetpu.list"];
   AptUpdate; AptInstall ["libedgetpu1-std"];
   Exec ["mkdir"; "/coral"];
   Exec ["git"; "clone"; "https://github.com/google-coral/tflite.git"];
   PipInstall "https://dl.google.com/coral/python/tflite_runtime-2.1.0.post1-cp36-cp36m-linux_x86_64.whl";
   Exec ["./install_requirements.sh"];
   Exec ["mkdir"; "-p"; "/notebooks/intro_to_tensorflow"];
   Exec ["ls"; "-d"; "/notebooks/*"];
   Exec ["grep"; "-v"; "intro_to_tensorflow"];
   Exec ["xargs"; "-r"; "mv"; "-t"; "/notebooks/intro_to_tensorflow"]].

(** The packages asked of apt-get, in order. *)
Definition apt_packages (l : list event) : list string :=
  flat_map (fun e => match e with AptInstall pkgs => pkgs | _ => [] end) l.

(** The four installation phases of the recipe.  Whatever names the
    Coral repository or an edgetpu package belongs to the last one. *)
Inductive phase : Type :=
| SystemPackages
| PythonDependencies
| DeepcellPackage
| EdgeTpuToolchain.

Definition phase_rank (p : phase) : nat :=
  match p with
  | SystemPackages => 0
  | PythonDependencies => 1
  | DeepcellPackage => 2
  | EdgeTpuToolchain => 3
  end.

Definition names_edgetpu (w : string) : bool :=
  Text.contains "coral" w || Text.contains "edgetpu" w.

Definition phase_of (e : event) : option phase :=
  match e with
  | AptUpdate => None
  | AptInstall pkgs =>
      if existsb names_edgetpu pkgs then Some EdgeTpuToolchain
      else Some SystemPackages
  | PipRequirements _ _ => Some PythonDependencies
  | PipInstall target =>
      if String.eqb target "/opt/deepcell-tf" then Some DeepcellPackage
      else if names_edgetpu target then Some EdgeTpuToolchain
      else None
  | Exec argv =>
      if existsb names_edgetpu argv then Some EdgeTpuToolchain else None
  end.

Fixpoint phases (l : list event) : list phase :=
  match l with
  | [] => []
  | e :: l' =>
      match phase_of e with
      | Some p => p :: phases l'
      | None => phases l'
      end
  end.

(** The command of the last line of the recipe. *)
Definition jupyter_command : list string :=
  ["jupyter"; "notebook"; "--ip=0.0.0.0"; "--allow-root"].

(** A registry and a build context to run the build on. *)
Definition tf_base : base_image :=
  {| base_entrypoint := []; base_cmd := ["/bin/bash"]; base_workdir := "/";
     base_dirs := [] |}.

Definition demo_pull (ref : string) : option base_image :=
  if Text.starts_with "tensorflow/tensorflow:" ref then Some tf_base else None.

Definition demo_context : files :=
  [ ("setup.py", ["from setuptools import setup"]);
    ("requirements.txt",
     ["numpy>=1.16.4"; "tensorflow-gpu>=1.14.0"; "scipy>=1.1.0";
      "# tensorflow is provided by the base image"; "keras-preprocessing==1.1.0"]);
    ("deepcell/__init__.py", ["from deepcell import applications"]);
    ("scripts/README.md", ["notebooks"]) ].

Definition demo_image : image :=
  Eval vm_compute in
    match build demo_pull [] demo_context with
    | Some img => img
    | None => scratch
    end.

(** The recipe with the [if] of its guarded RUN line dropped: the
    commands between [then] and [fi] run whatever the test says. *)
Definition unguarded (i : instruction) : instruction :=
  match i with
  | RUN (IfThen _ body) => RUN (AndList body)
  | _ => i
  end.

(** A command that makes the package index stale: it names the
    directory of the downloaded lists or the list of apt sources. *)
Definition stales_index (argv : list string) : bool :=
  existsb (Text.contains "/var/lib/apt/lists") argv
  || existsb (Text.contains "/etc/apt/sources.list") argv.

(** Every [apt-get install] of a log finds a package index that
    [apt-get update] has read since the last such command; [fresh]
    tells whether the index is so at the start. *)
Fixpoint apt_index_fresh (fresh : bool) (l : list event) : bool :=
  match l with
  | [] => true
  | AptUpdate :: l' => apt_index_fresh true l'
  | AptInstall _ :: l' => fresh && apt_index_fresh fresh l'
  | Exec argv :: l' => apt_index_fresh (fresh && negb (stales_index argv)) l'
  | _ :: l' => apt_index_fresh fresh l'
  end.


End Docker.

(** ** posixpath: the functions of Python's [os.path] the notebook calls *)

Module PosixPath.
Import Text.

Definition isabs (s : string) : bool := starts_with "/" s.

(** One step of [join(a, *p)]: an absolute component restarts the path. *)
Definition join2 (path b : string) : string :=
  if starts_with "/" b then b
  else if String.eqb path "" || ends_with_char slash path then path ++ b
  else path ++ "/" ++ b.

Definition join (a : string) (p : list string) : string := fold_left join2 p a.

(** [p[:p.rfind('/') + 1]] *)
Fixpoint dir_part (p : string) : string :=
  match p with
  | EmptyString => EmptyString
  | String a p' =>
      match dir_part p' with
      | EmptyString => if Ascii.eqb a slash then "/" else EmptyString
      | h => String a h
      end
  end.

Definition all_slashes (s : string) : bool :=
  forallb (Ascii.eqb slash) (list_ascii_of_string s).

Definition dirname (p : string) : string :=
  let head := dir_part p in
  if negb (String.eqb head "") && negb (all_slashes head)
  then rstrip_char slash head else head.

(** The loop of [normpath] over the components. *)
Definition norm_step (initial_slashes : nat) (new_comps : list string)
    (comp : string) : list string :=
  if String.eqb comp "" || String.eqb comp "." then new_comps
  else if negb (String.eqb comp "..")
          || (Nat.eqb initial_slashes 0 && match new_comps with [] => true | _ => false end)
          || (match new_comps with
              | [] => false
              | _ => String.eqb (last new_comps "") ".."
              end)
       then new_comps ++ [comp]
       else removelast new_comps.

Definition initial_slashes (path : string) : nat :=
  if starts_with "/" path then
    if starts_with "//" path && negb (starts_with "///" path) then 2 else 1
  else 0.

Definition norm_comps (path : string) : list string :=
  fold_left (norm_step (initial_slashes path)) (split_char slash path) [].

Fixpoint slashes (n : nat) : string :=
  match n with
  | O => EmptyString
  | S n' => String slash (slashes n')
  end.

Definition render (k : nat) (comps : list string) : string :=
  let path := (slashes k ++ join_char slash comps)%string in
  if String.eqb path "" then "." else path.

Definition normpath (path : string) : string :=
  if String.eqb path "" then "."
  else render (initial_slashes path) (norm_comps path).

(** The components of a path: [[x for x in p.split('/') if x]]. *)
Definition nonempty (s : string) : bool := negb (String.eqb s "").

Definition ne_comps (p : string) : list string :=
  filter nonempty (split_char slash p).

(** A component as [normpath] leaves them in an absolute path: a name
    without slash, other than the empty one, [.] and [..]. *)
Definition proper_component (c : string) : bool :=
  nonempty c && negb (String.eqb c ".") && negb (String.eqb c "..")
  && negb (contains "/" c).

Section Process.

(** [os.getcwd()] and the home directory of the user. *)
Variable cwd : string.
Variable home : string.

(** [abspath]: a relative path is joined to the working directory,
    then the path is normalised. *)
Definition abs_of (path : string) : string :=
  if isabs path then path else join cwd [path].

Definition abspath (path : string) : string := normpath (abs_of path).

(** The index of the first slash of [s], from position 0. *)
Fixpoint find_slash (s : string) : option nat :=
  match s with
  | EmptyString => None
  | String a s' =>
      if Ascii.eqb a slash then Some 0
      else option_map S (find_slash s')
  end.

(** [expanduser]: [~] alone or followed by a slash is the user's home;
    no other user is known, and such a path is returned as it is. *)
Definition expanduser (path : string) : string :=
  match path with
  | String t rest =>
      if Ascii.eqb t "~" then
        let i := match find_slash rest with
                 | Some k => S k
                 | None => String.length path
                 end in
        if Nat.eqb i 1 then
          let userhome := rstrip_char slash home in
          let r := (userhome ++ drop i path)%string in
          if String.eqb r "" then "/" else r
        else path
      else path
  | EmptyString => path
  end.

Fixpoint commonprefix_length (l1 l2 : list string) : nat :=
  match l1, l2 with
  | a :: l1', b :: l2' =>
      if String.eqb a b then S (commonprefix_length l1' l2') else 0
  | _, _ => 0
  end.

(** [relpath(path, start)]; [None] is the ValueError for an empty path. *)
Definition relpath (path start : string) : option string :=
  if String.eqb path "" then None
  else
    let start_list := ne_comps (abspath start) in
    let path_list := ne_comps (abspath path) in
    let i := commonprefix_length start_list path_list in
    let rel_list := repeat ".." (List.length start_list - i) ++ skipn i path_list in
    match rel_list with
    | [] => Some "."
    | a :: p => Some (join a p)
    end.

(** [p] lies in the directory [root] or below it: after both are made
    absolute and normal, the components of [root] begin those of [p]. *)
Fixpoint list_prefix (l1 l2 : list string) : bool :=
  match l1, l2 with
  | [], _ => true
  | a :: l1', b :: l2' => String.eqb a b && list_prefix l1' l2'
  | _ :: _, [] => false
  end.

Definition components (p : string) : list string := ne_comps (abspath p).

Definition descendant (p root : string) : bool :=
  list_prefix (components root) (components p).

End Process.

End PosixPath.

(** ** The tracking-training notebook *)

Module Notebook.
Import Text PosixPath.
Local Open Scope nat_scope.

(** *** numpy arrays of rank four: (frames, y, x, channels) *)

Record ndarray (V : Type) : Type := {
  shape : nat * nat * nat * nat;
  item : nat -> nat -> nat -> nat -> V
}.

Arguments shape {V} _.
Arguments item {V} _ _ _ _ _.

Definition dim0 {V} (a : ndarray V) : nat := let '(n0, _, _, _) := shape a in n0.
Definition dim1 {V} (a : ndarray V) : nat := let '(_, n1, _, _) := shape a in n1.
Definition dim2 {V} (a : ndarray V) : nat := let '(_, _, n2, _) := shape a in n2.
Definition dim3 {V} (a : ndarray V) : nat := let '(_, _, _, n3) := shape a in n3.

Definition within (before n i : nat) : bool := (before <=? i) && (i <? before + n).

(** [np.pad(a, pad_width, mode='constant', constant_values=zero)] with
    [pad_width = ((b0, a0), (b1, a1), (b2, a2), (b3, a3))]. *)
Definition np_pad {V} (zero : V) (a : ndarray V)
    (pad_width : (nat * nat) * (nat * nat) * (nat * nat) * (nat * nat)) : ndarray V :=
  let '((b0, a0), (b1, a1), (b2, a2), (b3, a3)) := pad_width in
  {| shape := (b0 + dim0 a + a0, b1 + dim1 a + a1, b2 + dim2 a + a2, b3 + dim3 a + a3);
     item := fun i j k l =>
       if within b0 (dim0 a) i && within b1 (dim1 a) j
          && within b2 (dim2 a) k && within b3 (dim3 a) l
       then item a (i - b0) (j - b1) (k - b2) (l - b3)
       else zero |}.

(** Two arrays with the same shape and the same elements. *)
Definition same_array {V} (a b : ndarray V) : Prop :=
  shape a = shape b /\
  forall i j k l, i < dim0 a -> j < dim1 a -> k < dim2 a -> l < dim3 a ->
                  item a i j k l = item b i j k l.

(** The elements of an array, frame by frame, for display. *)
Definition to_lists {V} (a : ndarray V) : list (list (list (list V))) :=
  map (fun i => map (fun j => map (fun k => map (fun l => item a i j k l)
                                                (seq 0 (dim3 a)))
                                  (seq 0 (dim2 a)))
                    (seq 0 (dim1 a)))
      (seq 0 (dim0 a)).

(** A loaded .trks file: [trks['lineages']], [trks['X']], [trks['y']]. *)
Record trks (V L : Type) : Type := {
  lineages : list L;
  X : list (ndarray V);
  y : list (ndarray Z)
}.

Arguments lineages {V L} _.
Arguments X {V L} _.
Arguments y {V L} _.

Section Preprocess.

(** Raw images hold values of type [V] (floats in the notebook), of
    which only zero matters here; lineages are kept as they are. *)
Variable V L : Type.
Variable zero : V.

(** [image_norm] works in floating point; it is given the frame and
    its size and returns the normalised frame. *)
Variable image_norm : nat -> nat -> (nat -> nat -> V) -> nat -> nat -> V.

(** *** Cell 3: the maximal dimensions *)

(** One turn of the loop; [None] is the IndexError of [trks['X'][0]]
    on a file without movies. *)
Definition update_max (m : nat * nat * nat) (t : trks V L) : option (nat * nat * nat) :=
  match X t with
  | [] => None
  | x0 :: _ =>
      let '(max_frames, max_y, max_x) := m in
      let max_frames := if max_frames <? dim0 x0 then dim0 x0 else max_frames in
      let max_y := if max_y <? dim1 x0 then dim1 x0 else max_y in
      let max_x := if max_x <? dim2 x0 then dim2 x0 else max_x in
      Some (max_frames, max_y, max_x)
  end.

Fixpoint max_loop (trks_files : list (trks V L)) (m : nat * nat * nat)
    : option (nat * nat * nat) :=
  match trks_files with
  | [] => Some m
  | t :: rest =>
      match update_max m t with
      | Some m' => max_loop rest m'
      | None => None
      end
  end.

Definition max_dimensions (trks_files : list (trks V L)) : option (nat * nat * nat) :=
  max_loop trks_files (1, 1, 1).

(** *** Cell 4: normalising and padding *)

(** [raw[frame, :, :, 0] = image_norm(raw[frame, :, :, 0])] for every frame. *)
Definition normalize (raw : ndarray V) : ndarray V :=
  {| shape := shape raw;
     item := fun i j k l =>
       if (i <? dim0 raw) && (l =? 0)
       then image_norm (dim1 raw) (dim2 raw) (fun j' k' => item raw i j' k' 0) j k
       else item raw i j k l |}.

(** [int(diff2pad / 2)]: the true division by two of a size below
    2^53, as the sizes of arrays are, is exact in floating point, and
    [int] drops the half. *)
Definition int_half (diff2pad : nat) : nat := diff2pad / 2.

Definition pad_y (max_y : nat) (raw : ndarray V) (tracked : ndarray Z)
    : ndarray V * ndarray Z :=
  if dim1 raw <? max_y then
    let diff2pad := max_y - dim1 raw in
    let pad_width := int_half diff2pad in
    if diff2pad mod 2 =? 0 then
      (np_pad zero raw ((0, 0), (pad_width, pad_width), (0, 0), (0, 0)),
       np_pad 0%Z tracked ((0, 0), (pad_width, pad_width), (0, 0), (0, 0)))
    else
      (np_pad zero raw ((0, 0), (pad_width + 1, pad_width), (0, 0), (0, 0)),
       np_pad 0%Z tracked ((0, 0), (pad_width + 1, pad_width), (0, 0), (0, 0)))
  else (raw, tracked).

Definition pad_x (max_x : nat) (raw : ndarray V) (tracked : ndarray Z)
    : ndarray V * ndarray Z :=
  if dim2 raw <? max_x then
    let diff2pad := max_x - dim2 raw in
    let pad_width := int_half diff2pad in
    if diff2pad mod 2 =? 0 then
      (np_pad zero raw ((0, 0), (0, 0), (pad_width, pad_width), (0, 0)),
       np_pad 0%Z tracked ((0, 0), (0, 0), (pad_width, pad_width), (0, 0)))
    else
      (np_pad zero raw ((0, 0), (0, 0), (pad_width + 1, pad_width), (0, 0)),
       np_pad 0%Z tracked ((0, 0), (0, 0), (pad_width + 1, pad_width), (0, 0)))
  else (raw, tracked).

Definition pad_frames (max_frames : nat) (raw : ndarray V) (tracked : ndarray Z)
    : ndarray V * ndarray Z :=
  if dim0 raw <? max_frames then
    let pad_width := max_frames - dim0 raw in
    (np_pad zero raw ((0, pad_width), (0, 0), (0, 0), (0, 0)),
     np_pad 0%Z tracked ((0, pad_width), (0, 0), (0, 0), (0, 0)))
  else (raw, tracked).

(** The three padding steps of one movie, in the order of the cell. *)
Definition pad_movie (max_frames max_y max_x : nat)
    (raw : ndarray V) (tracked : ndarray Z) : ndarray V * ndarray Z :=
  let '(raw, tracked) := pad_y max_y raw tracked in
  let '(raw, tracked) := pad_x max_x raw tracked in
  pad_frames max_frames raw tracked.

(** The rows or columns the odd-or-even rule puts before and after
    an axis that lacks [d] of them. *)
Definition leading (d : nat) : nat := int_half d + d mod 2.
Definition trailing (d : nat) : nat := int_half d.

(** The pad widths the three steps add up to for a movie that is
    nowhere larger than the maxima. *)
Definition total_pad_width (max_frames max_y max_x : nat) (raw : ndarray V)
    : (nat * nat) * (nat * nat) * (nat * nat) * (nat * nat) :=
  ((0, max_frames - dim0 raw),
   (leading (max_y - dim1 raw), trailing (max_y - dim1 raw)),
   (leading (max_x - dim2 raw), trailing (max_x - dim2 raw)),
   (0, 0)).

(** The body of the inner loop, and the two loops; the counters [k]
    and [movie_counter] of the cell number the movies and are read
    nowhere else. *)
Definition process_movie (max_frames max_y max_x : nat)
    (raw : ndarray V) (tracked : ndarray Z) : ndarray V * ndarray Z :=
  pad_movie max_frames max_y max_x (normalize raw) tracked.

Fixpoint zip3 (ls : list L) (xs : list (ndarray V)) (ys : list (ndarray Z))
    : list (L * ndarray V * ndarray Z) :=
  match ls, xs, ys with
  | l :: ls', x :: xs', y :: ys' => (l, x, y) :: zip3 ls' xs' ys'
  | _, _, _ => []
  end.

Definition combine_files (max_frames max_y max_x : nat)
    (trks_files : list (trks V L)) : trks V L :=
  fold_left
    (fun acc t =>
       fold_left
         (fun acc m =>
            let '(lineage, raw, tracked) := m in
            let '(raw, tracked) := process_movie max_frames max_y max_x raw tracked in
            {| lineages := lineages acc ++ [lineage];
               X := X acc ++ [raw];
               y := y acc ++ [tracked] |})
         (zip3 (lineages t) (X t) (y t)) acc)
    trks_files
    {| lineages := []; X := []; y := [] |}.

End Preprocess.

(** A file with everything but the first movie dropped. *)
Definition first_only {V L} (t : trks V L) : trks V L :=
  {| lineages := firstn 1 (lineages t); X := firstn 1 (X t); y := firstn 1 (y t) |}.

(** A movie of one frame, two rows and one column, and its labels. *)
Definition demo_raw : ndarray Z :=
  {| shape := (1, 2, 1, 1); item := fun _ j _ _ => Z.of_nat (7 + j) |}.
Definition demo_tracked : ndarray Z :=
  {| shape := (1, 2, 1, 1); item := fun _ j _ _ => Z.of_nat (1 + j) |}.

(** A movie that is wider than [demo_raw], second in its file. *)
Definition demo_wide : ndarray Z :=
  {| shape := (1, 2, 4, 1); item := fun _ _ k _ => Z.of_nat k |}.

Definition demo_trks : trks Z unit :=
  {| lineages := [tt; tt];
     X := [demo_raw; demo_wide];
     y := [demo_tracked; demo_wide] |}.

(** A file of two movies of the same size, and a file of one wider movie. *)
Definition demo_uniform : trks Z unit :=
  {| lineages := [tt; tt];
     X := [demo_raw; demo_raw];
     y := [demo_tracked; demo_tracked] |}.

Definition demo_wide_file : trks Z unit :=
  {| lineages := [tt]; X := [demo_wide]; y := [demo_wide] |}.

(** *** Cell 6: the training portion *)

(** [int(total_data_size * (1 - test_size))] with [test_size = .1]:
    [1 - .1] is the double nearest to nine tenths, and for fewer than
    2^49 movies the product, rounded, is a whole number only when nine
    tenths of the size are; [int] drops the fraction. *)
Definition train_data_range (total_data_size : nat) : nat :=
  total_data_size * 9 / 10.

Section Split.

Variable V L : Type.

(** [random.sample(range(n), k)], as [random.seed(test_seed)] leaves it. *)
Variable sample : nat -> nat -> list nat.

(** The loop over [idx_train]; [None] is the IndexError of an index
    past the end of one of the three sequences. *)
Fixpoint select (t : trks V L) (idx_train : list nat) (acc : trks V L)
    : option (trks V L) :=
  match idx_train with
  | [] => Some acc
  | i :: rest =>
      match nth_error (lineages t) i, nth_error (X t) i, nth_error (y t) i with
      | Some lineage, Some raw, Some tracked =>
          select t rest {| lineages := lineages acc ++ [lineage];
                           X := X acc ++ [raw];
                           y := y acc ++ [tracked] |}
      | _, _, _ => None
      end
  end.

Definition training_portion (t : trks V L) : option (trks V L) :=
  let total_data_size := List.length (X t) in
  let idx_train := sample total_data_size (train_data_range total_data_size) in
  select t idx_train {| lineages := []; X := []; y := [] |}.

End Split.

(** A sampler to run the cell on: the last [k] indices, backwards. *)
Definition demo_sample (n k : nat) : list nat := firstn k (rev (seq 0 n)).

(** *** Cells 7, 8 and 12: file path constants *)

(** [str(n)] of an int. *)
Definition str_int (n : Z) : string := NilEmpty.string_of_int (Z.to_int n).

(** Cell 9: ['tracking_model_seed{}_tl{}'.format(train_seed, min_track_length)] *)
Definition format_model_name (train_seed min_track_length : Z) : string :=
  "tracking_model_seed" ++ str_int train_seed ++ "_tl" ++ str_int min_track_length.

Definition train_seed : Z := 1.
Definition min_track_length : Z := 9.

Section Paths.

(** The process environment, the root directory (to be changed by
    the user) and the model name. *)
Variable cwd home : string.
Variable ROOT_DIR : string.
Variable model_name : string.

Definition filename_train : string := "combined_training_data.trks".

Definition DATA_DIR : string := expanduser home (join "~" [".keras"; "datasets"]).
Definition DATA_FILE : string := join DATA_DIR [filename_train].

Definition PREFIX : option string := relpath cwd (dirname DATA_FILE) DATA_DIR.

Definition MODEL_DIR : option string :=
  option_map (fun prefix => abspath cwd (join ROOT_DIR ["models"; prefix])) PREFIX.
Definition LOG_DIR : option string :=
  option_map (fun prefix => abspath cwd (join ROOT_DIR ["logs"; prefix])) PREFIX.

Definition model_path : option string :=
  option_map (fun d => join d [(model_name ++ ".h5")%string]) MODEL_DIR.
Definition loss_path : option string :=
  option_map (fun d => join d [(model_name ++ ".npz")%string]) MODEL_DIR.

(** What [get_callbacks] is handed: the weights file of the
    checkpoint and the TensorBoard log directory. *)
Definition callback_paths : option (string * string) :=
  match model_path, LOG_DIR with
  | Some m, Some l => Some (m, l)
  | _, _ => None
  end.

End Paths.


(** The value of [ROOT_DIR] in the notebook. *)
Definition default_ROOT_DIR : string := "/data".

(** *** Cell 8: creating the directories *)

Inductive exn : Type :=
| OSError (errno : Z)
| OtherException (name : string).

Definition EEXIST : Z := 17.
Definition EACCES : Z := 13.

Section Directories.

(** The file system, and [os.makedirs]: the file system afterwards
    and the exception raised, if any. *)
Variable FS : Type.
Variable makedirs : string -> FS -> FS * option exn.

(** A computation on the file system that may raise. *)
Definition action : Type := FS -> FS * option exn.

Definition pass : action := fun fs => (fs, None).
Definition raise (e : exn) : action := fun fs => (fs, Some e).

Definition seq_action (a b : action) : action :=
  fun fs => match a fs with
            | (fs', None) => b fs'
            | (fs', Some e) => (fs', Some e)
            end.

(** [try: body  except OSError as exc: handler exc] *)
Definition try_except_OSError (body : action) (handler : Z -> action) : action :=
  fun fs => match body fs with
            | (fs', Some (OSError errno)) => handler errno fs'
            | r => r
            end.

(** The handler: [if exc.errno != errno.EEXIST: raise]. *)
Definition guard_race (errno : Z) : action :=
  if negb (errno =? EEXIST)%Z then raise (OSError errno) else pass.

Definition make_directory (d : string) : action :=
  try_except_OSError (makedirs d) guard_race.

(** [for d in ds: ...] *)
Fixpoint make_directories (ds : list string) : action :=
  match ds with
  | [] => pass
  | d :: ds' => seq_action (make_directory d) (make_directories ds')
  end.

Definition create_directories (model_dir log_dir : string) : action :=
  make_directories [model_dir; log_dir].

End Directories.

(** A file system to run the cell on: the directories that exist and
    those that cannot be written to. *)
Record disk : Type := {
  existing : list string;
  read_only : list string
}.

Definition disk_makedirs (d : string) (fs : disk) : disk * option exn :=
  if existsb (String.eqb d) (existing fs) then (fs, Some (OSError EEXIST))
  else if existsb (fun r => starts_with r d) (read_only fs) then (fs, Some (OSError EACCES))
  else ({| existing := d :: existing fs; read_only := read_only fs |}, None).

(** A disk on which the model directory exists already and the log
    directory cannot be made. *)
Definition racing_disk : disk :=
  {| existing := ["/data/models"]; read_only := ["/data/logs"] |}.

(** Whether a path exists on a disk. *)
Definition disk_exists (d : string) (fs : disk) : bool :=
  existsb (String.eqb d) (existing fs).

(** A disk with nothing on it. *)
Definition empty_disk : disk := {| existing := []; read_only := [] |}.

End Notebook.

(** ** The segmentation application *)

Module Applications.
Import Notebook.
Local Open Scope nat_scope.

Section Segmentation.

Variable V : Type.

(** The pretrained network with its post-processing: the instance
    label of each pixel of the movie it is given. *)
Variable model : ndarray V -> nat -> nat -> nat -> nat -> Z.

(** Modelled from the spec: the rescaling inside [predict], whose code
    is not among the sources.  The size of a side of [n] pixels once
    the image is brought from the resolution [image_mpp] to
    [model_mpp] (in nanometres per pixel). *)
Definition rescaled (image_mpp model_mpp : positive) (n : nat) : nat :=
  N.to_nat (N.of_nat n * Npos image_mpp / Npos model_mpp).

(** Modelled from the spec: the resampling inside [predict], of every
    frame to [h] rows and [w] columns. *)
Definition resize {A} (h w : nat) (a : ndarray A) : ndarray A :=
  {| shape := (dim0 a, h, w, dim3 a);
     item := fun i j k l => item a i (j * dim1 a / h) (k * dim2 a / w) l |}.

(** The training resolution the notebook prints, 0.65 microns per pixel. *)
Definition model_mpp : positive := 650.

(** Modelled from the spec: [predict] of the segmentation application
    (deepcell.applications) is not among the sources.  The glossary
    calls it a wrapper "producing per-pixel instance labels from raw
    microscopy images"; the notebook adds that it rescales the input
    to the training resolution and rescales "to the original size
    before returning the labeled image". *)
Definition predict (x : ndarray V) (image_mpp : positive) : ndarray Z :=
  let x' := resize (rescaled image_mpp model_mpp (dim1 x))
                   (rescaled image_mpp model_mpp (dim2 x)) x in
  let labels := {| shape := shape x'; item := model x' |} in
  resize (dim1 x) (dim2 x) labels.

End Segmentation.

End Applications.

(* ================================================================== *)
(** * Properties *)

(** ** Text *)

Section TextFacts.
Import Text.

Lemma prefix_app p t : prefix p (p ++ t) = true.
Proof.
  induction p as [|a p IH]; cbn; [now destruct t|].
  now destruct (ascii_dec a a).
Qed.

Lemma prefix_inv p s : prefix p s = true -> exists t, s = (p ++ t)%string.
Proof.
  revert s. induction p as [|a p IH]; intros s H.
  - now exists s.
  - destruct s as [|c s]; cbn in H; [discriminate|].
    destruct (ascii_dec a c) as [<-|]; [|discriminate].
    destruct (IH _ H) as [t ->]. now exists t.
Qed.


End TextFacts.

(** ** The container build *)

Section DockerBuild.
Import Docker.

Arguments lookup_arg : simpl never.
Arguments lookup_file : simpl never.
Arguments copy_src : simpl never.
Arguments sed_delete : simpl never.

Lemma lookup_arg_head n v env : lookup_arg n ((n, v) :: env) = Some v.
Proof. unfold lookup_arg. cbn. now rewrite String.eqb_refl. Qed.

Lemma lookup_file_head p c fs : lookup_file p ((p, c) :: fs) = Some c.
Proof. unfold lookup_file. cbn. now rewrite String.eqb_refl. Qed.

Lemma build_inversion pull args ctx img :
  build pull args ctx = Some img ->
  exists b new1 new2 reqs,
    pull (tag_of args) = Some b /\
    copy_src ctx "/opt/deepcell-tf/" "setup.py" = Some new1 /\
    copy_src ctx "/opt/deepcell-tf/" "requirements.txt" = Some new2 /\
    lookup_file "/opt/deepcell-tf/requirements.txt" (new2 ++ new1) = Some reqs /\
    img_from img = Some (tag_of args) /\
    img_entrypoint img = base_entrypoint b /\
    img_cmd img = ["jupyter"; "notebook"; "--ip=0.0.0.0"; "--allow-root"] /\
    img_log img = build_log reqs.
Proof.
  unfold build, Dockerfile, tag_of.
  cbn [exec_instructions exec_instruction img_args scratch expand map concat].
  rewrite lookup_arg_head.
  set (v := match lookup_arg "TF_VERSION" args with Some v => v | None => "1.15.0-gpu" end).
  cbn [String.append].
  destruct (pull _) as [b|] eqn:Hpull; [|discriminate].
  cbn.
  destruct (copy_src ctx _ "setup.py") as [new1|] eqn:Hc1; [|discriminate].
  destruct (copy_src ctx _ "requirements.txt") as [new2|] eqn:Hc2; [|discriminate].
  cbn. rewrite app_nil_r.
  destruct (lookup_file _ (new2 ++ new1)) as [reqs|] eqn:Hreq; [|discriminate].
  cbn. rewrite lookup_file_head.
  destruct (copy_src ctx _ "deepcell") as [new3|] eqn:Hc3; [|discriminate].
  cbn.
  destruct (copy_src ctx _ "scripts/") as [new4|] eqn:Hc4; [|discriminate].
  cbn. intros [= <-].
  exists b, new1, new2, reqs. cbn. repeat split; trivial.
Qed.

(** The build goes through when the registry has the base image and
    the context has the two files and the two directories. *)
Lemma build_succeeds pull args ctx b setup reqs new3 new4 :
  pull (tag_of args) = Some b ->
  lookup_file "setup.py" ctx = Some setup ->
  lookup_file "requirements.txt" ctx = Some reqs ->
  copy_src ctx "/opt/deepcell-tf/deepcell" "deepcell" = Some new3 ->
  copy_src ctx "/notebooks/" "scripts/" = Some new4 ->
  exists img, build pull args ctx = Some img /\ img_log img = build_log reqs.
Proof.
  intros Hpull Hsetup Hreqs Hc3 Hc4.
  assert (Hc1 : copy_src ctx "/opt/deepcell-tf/" "setup.py"
                = Some [("/opt/deepcell-tf/setup.py", setup)])
    by (unfold copy_src; now rewrite Hsetup).
  assert (Hc2 : copy_src ctx "/opt/deepcell-tf/" "requirements.txt"
                = Some [("/opt/deepcell-tf/requirements.txt", reqs)])
    by (unfold copy_src; now rewrite Hreqs).
  unfold build, Dockerfile. unfold tag_of in Hpull.
  cbn [exec_instructions exec_instruction img_args scratch expand map concat].
  rewrite lookup_arg_head. cbn [String.append] in Hpull |- *.
  rewrite Hpull. cbn. rewrite Hc1, Hc2. cbn. rewrite lookup_file_head.
  cbn. rewrite lookup_file_head. rewrite Hc3. cbn. rewrite Hc4. cbn.
  eexists. split; reflexivity.
Qed.



(** C1.  Whatever the registry, the build arguments and the context,
    a finished build leaves the CMD of the last line in the image, and
    a container started without a command runs the entry point of the
    base image (the recipe sets none) followed by it: with a base image
    that has no entry point, exactly
    [jupyter notebook --ip=0.0.0.0 --allow-root]. *)
Theorem default_command_launches_jupyter pull args ctx img :
  build pull args ctx = Some img ->
  img_cmd img = ["jupyter"; "notebook"; "--ip=0.0.0.0"; "--allow-root"] /\
  In "--ip=0.0.0.0" (container_argv img None) /\
  In "--allow-root" (container_argv img None) /\
  exists b,
    pull (tag_of args) = Some b /\
    container_argv img None = base_entrypoint b ++ jupyter_command /\
    (base_entrypoint b = [] -> container_argv img None = jupyter_command).
Proof.
  intros H.
  destruct (build_inversion _ _ _ H)
    as (b & new1 & new2 & reqs & Hpull & _ & _ & _ & _ & Hentry & Hcmd & _).
  unfold container_argv. rewrite Hcmd, Hentry.
  repeat split.
  - apply in_or_app. right. cbn. tauto.
  - apply in_or_app. right. cbn. tauto.
  - exists b. repeat split; trivial. now intros ->.
Qed.

Lemma default_command_launches_jupyter_witness :
  build demo_pull [] demo_context = Some demo_image /\
  container_argv demo_image None = jupyter_command.
Proof.
  split; [vm_compute; reflexivity|].
  destruct (default_command_launches_jupyter demo_pull [] demo_context
              (img := demo_image)) as (_ & _ & _ & b & Hb & _ & Hrun).
  - vm_compute; reflexivity.
  - apply Hrun. injection Hb as <-. reflexivity.
Defined.

(** C3.  The packages the build asks of apt-get are the three system
    packages and the Edge TPU runtime library [libedgetpu1-std]; the
    compiler package is not among them. *)
Theorem edgetpu_compiler_not_installed pull args ctx img :
  build pull args ctx = Some img ->
  apt_packages (img_log img) = ["python3-tk"; "git"; "libsm6"; "libedgetpu1-std"] /\
  ~ In "edgetpu-compiler" (apt_packages (img_log img)) /\
  ~ In "edgetpu" (apt_packages (img_log img)) /\
  forall argv, In (Exec argv) (img_log img) ->
               existsb (Text.contains "compiler") argv = false.
Proof.
  intros H.
  destruct (build_inversion _ _ _ H)
    as (b & new1 & new2 & reqs & _ & _ & _ & _ & _ & _ & _ & Hlog).
  rewrite Hlog. cbn [build_log apt_packages flat_map app].
  repeat split.
  - cbn. intros Hin. repeat (destruct Hin as [Hin|Hin]; [discriminate|]). exact Hin.
  - cbn. intros Hin. repeat (destruct Hin as [Hin|Hin]; [discriminate|]). exact Hin.
  - intros argv Hin. cbn [In] in Hin.
    repeat (destruct Hin as [Hin|Hin];
            [first [discriminate | injection Hin as <-; vm_compute; reflexivity]|]).
    contradiction.
Qed.

Lemma edgetpu_compiler_not_installed_witness :
  build demo_pull [] demo_context = Some demo_image /\
  apt_packages (img_log demo_image) = ["python3-tk"; "git"; "libsm6"; "libedgetpu1-std"].
Proof.
  split; [vm_compute; reflexivity|].
  apply (edgetpu_compiler_not_installed demo_pull [] demo_context).
  vm_compute; reflexivity.
Defined.

(** C5.  The image the build starts from is
    [tensorflow/tensorflow:${TF_VERSION}-py3] for every value given to
    TF_VERSION, and [tensorflow/tensorflow:1.15.0-gpu-py3] when none is
    given; the tag always ends in [-py3], and TF_VERSION is the only
    build argument of the recipe. *)
Theorem base_image_tag pull args ctx img :
  build pull args ctx = Some img ->
  (forall v, lookup_arg "TF_VERSION" args = Some v ->
             img_from img = Some ("tensorflow/tensorflow:" ++ v ++ "-py3")%string) /\
  (lookup_arg "TF_VERSION" args = None ->
   img_from img = Some "tensorflow/tensorflow:1.15.0-gpu-py3") /\
  (exists v, img_from img = Some ("tensorflow/tensorflow:" ++ v ++ "-py3")%string) /\
  (exists b, pull (tag_of args) = Some b /\ img_from img = Some (tag_of args)) /\
  (forall name default, In (ARG name default) Dockerfile ->
                        name = "TF_VERSION" /\ default = "1.15.0-gpu").
Proof.
  intros H.
  destruct (build_inversion _ _ _ H)
    as (b & new1 & new2 & reqs & Hpull & _ & _ & _ & Hfrom & _).
  rewrite Hfrom. unfold tag_of. split; [|split; [|split; [|split]]].
  - now intros v ->.
  - now intros ->.
  - eexists; reflexivity.
  - now exists b.
  - intros name default Hin. unfold Dockerfile in Hin. cbn [In] in Hin.
    repeat (destruct Hin as [Hin|Hin];
            [first [discriminate | now injection Hin as <- <-]|]).
    contradiction.
Qed.

Lemma base_image_tag_witness :
  build demo_pull [("TF_VERSION", "2.1.0")] demo_context <> None /\
  img_from (match build demo_pull [("TF_VERSION", "2.1.0")] demo_context with
            | Some img => img
            | None => scratch
            end) = Some "tensorflow/tensorflow:2.1.0-py3".
Proof.
  split; [vm_compute; discriminate|].
  destruct (build demo_pull [("TF_VERSION", "2.1.0")] demo_context) as [img|] eqn:E.
  - apply (proj1 (base_image_tag _ _ _ E) "2.1.0"). reflexivity.
  - vm_compute in E. discriminate E.
Defined.

(** C6.  In the build log the four phases come in the order system
    packages, requirements, deepcell package, Edge TPU tool chain: the
    phases of the events are sorted by rank, and each phase occurs. *)
Theorem install_phases_in_order pull args ctx img :
  build pull args ctx = Some img ->
  phases (img_log img)
  = [SystemPackages; PythonDependencies; DeepcellPackage;
     EdgeTpuToolchain; EdgeTpuToolchain; EdgeTpuToolchain;
     EdgeTpuToolchain; EdgeTpuToolchain; EdgeTpuToolchain] /\
  StronglySorted (fun p q => phase_rank p <= phase_rank q) (phases (img_log img)).
Proof.
  intros H.
  destruct (build_inversion _ _ _ H)
    as (b & new1 & new2 & reqs & _ & _ & _ & _ & _ & _ & _ & Hlog).
  rewrite Hlog.
  assert (Hp : phases (build_log reqs)
               = [SystemPackages; PythonDependencies; DeepcellPackage;
                  EdgeTpuToolchain; EdgeTpuToolchain; EdgeTpuToolchain;
                  EdgeTpuToolchain; EdgeTpuToolchain; EdgeTpuToolchain])
    by (vm_compute; reflexivity).
  rewrite Hp. split; [reflexivity|].
  repeat (constructor; [|repeat constructor; cbn; lia]). constructor.
Qed.

Lemma install_phases_in_order_witness :
  build demo_pull [] demo_context = Some demo_image /\
  StronglySorted (fun p q => phase_rank p <= phase_rank q) (phases (img_log demo_image)).
Proof.
  split; [vm_compute; reflexivity|].
  apply (install_phases_in_order demo_pull [] demo_context).
  vm_compute; reflexivity.
Defined.



End DockerBuild.

(** ** The notebook: creating the directories *)

Section DirectoriesFacts.
Import Notebook.

Variable FS : Type.
Variable makedirs : string -> FS -> FS * option exn.

Lemma make_directory_OSError d fs fs' errno :
  makedirs d fs = (fs', Some (OSError errno)) ->
  make_directory makedirs d fs
  = (fs', if (errno =? EEXIST)%Z then None else Some (OSError errno)).
Proof.
  intros H. unfold make_directory, try_except_OSError, guard_race. rewrite H.
  now destruct (errno =? EEXIST)%Z.
Qed.

Lemma make_directory_other d fs r :
  makedirs d fs = r ->
  (forall errno, snd r <> Some (OSError errno)) ->
  make_directory makedirs d fs = r.
Proof.
  intros H Hr. unfold make_directory, try_except_OSError. rewrite H.
  destruct r as [fs' [[errno|name]|]]; trivial. now destruct (Hr errno).
Qed.

(** C2.  For the model directory and, once the loop reaches it, for the
    log directory: an OSError of [os.makedirs] whose errno is EEXIST is
    swallowed and the loop goes on, one with any other errno leaves the
    cell as it was raised; in general the try statement ends without
    an exception exactly when the errno is EEXIST. *)
Theorem makedirs_error_handling (model_dir log_dir : string) (fs : FS) :
  (forall fs1 errno,
      makedirs model_dir fs = (fs1, Some (OSError errno)) ->
      (errno = EEXIST ->
       create_directories makedirs model_dir log_dir fs
       = seq_action (make_directory makedirs log_dir) (@pass FS) fs1) /\
      (errno <> EEXIST ->
       create_directories makedirs model_dir log_dir fs = (fs1, Some (OSError errno)))) /\
  (forall fs1 fs2 errno,
      make_directory makedirs model_dir fs = (fs1, None) ->
      makedirs log_dir fs1 = (fs2, Some (OSError errno)) ->
      (errno = EEXIST ->
       create_directories makedirs model_dir log_dir fs = (fs2, None)) /\
      (errno <> EEXIST ->
       create_directories makedirs model_dir log_dir fs = (fs2, Some (OSError errno)))) /\
  (forall d fs0 fs1 errno,
      makedirs d fs0 = (fs1, Some (OSError errno)) ->
      (make_directory makedirs d fs0 = (fs1, None) <-> errno = EEXIST) /\
      (make_directory makedirs d fs0 = (fs1, Some (OSError errno)) <-> errno <> EEXIST)).
Proof.
  split; [|split].
  - intros fs1 errno H.
    unfold create_directories. cbn [make_directories].
    split; intros Hne; unfold seq_action at 1;
      rewrite (make_directory_OSError H).
    + now rewrite Hne.
    + apply Z.eqb_neq in Hne. now rewrite Hne.
  - intros fs1 fs2 errno H1 H2.
    unfold create_directories. cbn [make_directories].
    split; intros Hne; unfold seq_action, pass;
      rewrite H1, (make_directory_OSError H2).
    + now rewrite Hne.
    + apply Z.eqb_neq in Hne. now rewrite Hne.
  - intros d fs0 fs1 errno H. rewrite (make_directory_OSError H).
    destruct (errno =? EEXIST)%Z eqn:E.
    + apply Z.eqb_eq in E. split; split; trivial; try congruence.
    + apply Z.eqb_neq in E. split; split; trivial; try congruence.
Qed.

End DirectoriesFacts.

Lemma makedirs_error_handling_witness :
  Notebook.disk_makedirs "/data/models" Notebook.racing_disk
  = (Notebook.racing_disk, Some (Notebook.OSError Notebook.EEXIST)) /\
  Notebook.disk_makedirs "/data/logs" Notebook.racing_disk
  = (Notebook.racing_disk, Some (Notebook.OSError Notebook.EACCES)) /\
  Notebook.create_directories Notebook.disk_makedirs "/data/models" "/data/logs" Notebook.racing_disk
  = (Notebook.racing_disk, Some (Notebook.OSError Notebook.EACCES)).
Proof.
  split; [reflexivity|]. split; [reflexivity|].
  refine (proj2 (proj1 (proj2 (makedirs_error_handling Notebook.disk_makedirs
                                 "/data/models" "/data/logs" Notebook.racing_disk))
                   Notebook.racing_disk Notebook.racing_disk Notebook.EACCES _ _) _).
  - reflexivity.
  - reflexivity.
  - discriminate.
Defined.

(** ** The notebook: maximal dimensions and padding *)

Unset Implicit Arguments.

Section PreprocessFacts.
Import Notebook.
Local Open Scope nat_scope.

Variable V L : Type.
Variable zero : V.

Ltac bools :=
  repeat match goal with
  | H : (_ && _) = true |- _ => apply andb_true_iff in H; destruct H
  | H : (_ && _) = false |- _ => apply andb_false_iff in H; destruct H
  | H : (_ <=? _) = true |- _ => apply Nat.leb_le in H
  | H : (_ <=? _) = false |- _ => apply Nat.leb_gt in H
  | H : (_ <? _) = true |- _ => apply Nat.ltb_lt in H
  | H : (_ <? _) = false |- _ => apply Nat.ltb_ge in H
  | H : (_ =? _) = true |- _ => apply Nat.eqb_eq in H
  | H : (_ =? _) = false |- _ => apply Nat.eqb_neq in H
  end.

Lemma shape_dims {A} (a : ndarray A) : shape a = (dim0 a, dim1 a, dim2 a, dim3 a).
Proof. unfold dim0, dim1, dim2, dim3. now destruct (shape a) as [[[? ?] ?] ?]. Qed.

Lemma half_split d : int_half d + d mod 2 + int_half d = d.
Proof.
  unfold int_half. pose proof (Nat.div_mod_eq d 2). lia.
Qed.

Lemma mod2_cases d : d mod 2 = 0 \/ d mod 2 = 1.
Proof. pose proof (Nat.mod_upper_bound d 2). lia. Qed.

(** Each step pads one axis, on both arrays alike, or leaves both. *)
Lemma pad_y_spec max_y (raw : ndarray V) (tracked : ndarray Z) :
  dim1 raw <= max_y ->
  let d := max_y - dim1 raw in
  pad_y zero max_y raw tracked = (raw, tracked) /\ d = 0 \/
  pad_y zero max_y raw tracked
  = (np_pad zero raw ((0, 0), (int_half d + d mod 2, int_half d), (0, 0), (0, 0)),
     np_pad 0%Z tracked ((0, 0), (int_half d + d mod 2, int_half d), (0, 0), (0, 0))).
Proof.
  intros Hle d. unfold pad_y. fold d.
  destruct (dim1 raw <? max_y) eqn:E; bools.
  - right. destruct (d mod 2 =? 0) eqn:E2; bools.
    + now rewrite E2, Nat.add_0_r.
    + destruct (mod2_cases d) as [F|F]; [contradiction|]. now rewrite F.
  - left. split; [reflexivity|subst d; lia].
Qed.

Lemma pad_x_spec max_x (raw : ndarray V) (tracked : ndarray Z) :
  dim2 raw <= max_x ->
  let d := max_x - dim2 raw in
  pad_x zero max_x raw tracked = (raw, tracked) /\ d = 0 \/
  pad_x zero max_x raw tracked
  = (np_pad zero raw ((0, 0), (0, 0), (int_half d + d mod 2, int_half d), (0, 0)),
     np_pad 0%Z tracked ((0, 0), (0, 0), (int_half d + d mod 2, int_half d), (0, 0))).
Proof.
  intros Hle d. unfold pad_x. fold d.
  destruct (dim2 raw <? max_x) eqn:E; bools.
  - right. destruct (d mod 2 =? 0) eqn:E2; bools.
    + now rewrite E2, Nat.add_0_r.
    + destruct (mod2_cases d) as [F|F]; [contradiction|]. now rewrite F.
  - left. split; [reflexivity|subst d; lia].
Qed.

Lemma pad_frames_spec max_frames (raw : ndarray V) (tracked : ndarray Z) :
  dim0 raw <= max_frames ->
  let d := max_frames - dim0 raw in
  pad_frames zero max_frames raw tracked = (raw, tracked) /\ d = 0 \/
  pad_frames zero max_frames raw tracked
  = (np_pad zero raw ((0, d), (0, 0), (0, 0), (0, 0)),
     np_pad 0%Z tracked ((0, d), (0, 0), (0, 0), (0, 0))).
Proof.
  intros Hle d. unfold pad_frames. fold d.
  destruct (dim0 raw <? max_frames) eqn:E; bools.
  - now right.
  - left. split; [reflexivity|subst d; lia].
Qed.

Lemma shape_eq_dims {A} (a b : ndarray A) :
  dim0 a = dim0 b -> dim1 a = dim1 b -> dim2 a = dim2 b -> dim3 a = dim3 b ->
  shape a = shape b.
Proof. intros. rewrite (shape_dims a), (shape_dims b). congruence. Qed.

Lemma shape_is {A} (a : ndarray A) d0 d1 d2 d3 :
  dim0 a = d0 -> dim1 a = d1 -> dim2 a = d2 -> dim3 a = d3 ->
  shape a = (d0, d1, d2, d3).
Proof. intros. rewrite (shape_dims a). congruence. Qed.

Lemma dim0_np_pad {A} (z : A) a b0 a0 w1 w2 w3 :
  dim0 (np_pad z a ((b0, a0), w1, w2, w3)) = b0 + dim0 a + a0.
Proof. now destruct w1, w2, w3. Qed.

Lemma dim1_np_pad {A} (z : A) a w0 b1 a1 w2 w3 :
  dim1 (np_pad z a (w0, (b1, a1), w2, w3)) = b1 + dim1 a + a1.
Proof. now destruct w0, w2, w3. Qed.

Lemma dim2_np_pad {A} (z : A) a w0 w1 b2 a2 w3 :
  dim2 (np_pad z a (w0, w1, (b2, a2), w3)) = b2 + dim2 a + a2.
Proof. now destruct w0, w1, w3. Qed.

Lemma dim3_np_pad {A} (z : A) a w0 w1 w2 b3 a3 :
  dim3 (np_pad z a (w0, w1, w2, (b3, a3))) = b3 + dim3 a + a3.
Proof. now destruct w0, w1, w2. Qed.

Ltac dims := rewrite ?dim0_np_pad, ?dim1_np_pad, ?dim2_np_pad, ?dim3_np_pad in *.

Lemma item_np_pad {A} (z : A) a b0 a0 b1 a1 b2 a2 b3 a3 i j k l :
  item (np_pad z a ((b0, a0), (b1, a1), (b2, a2), (b3, a3))) i j k l
  = if within b0 (dim0 a) i && within b1 (dim1 a) j
       && within b2 (dim2 a) k && within b3 (dim3 a) l
    then item a (i - b0) (j - b1) (k - b2) (l - b3)
    else z.
Proof. reflexivity. Qed.

(** A window inside a window is a window. *)
Lemma within_nested r p n q i :
  within r (p + n + q) i && within p n (i - r) = within (p + r) n i.
Proof.
  unfold within.
  destruct (r <=? i) eqn:E1, (i <? r + (p + n + q)) eqn:E2,
           (p <=? i - r) eqn:E3, (i - r <? p + n) eqn:E4,
           (p + r <=? i) eqn:E5, (i <? p + r + n) eqn:E6;
    cbn; try reflexivity; bools; lia.
Qed.

Lemma same_array_refl {A} (a : ndarray A) : same_array a a.
Proof. now split. Qed.

Lemma same_array_trans {A} (a b c : ndarray A) :
  same_array a b -> same_array b c -> same_array a c.
Proof.
  intros [Sab Iab] [Sbc Ibc]. split; [congruence|].
  intros i j k l Hi Hj Hk Hl. rewrite Iab by assumption.
  apply Ibc; unfold dim0, dim1, dim2, dim3 in *; now rewrite <- Sab.
Qed.

Lemma np_pad_nothing {A} (z : A) (a : ndarray A) :
  same_array a (np_pad z a ((0, 0), (0, 0), (0, 0), (0, 0))).
Proof.
  split.
  - apply shape_eq_dims; dims; lia.
  - intros i j k l Hi Hj Hk Hl. rewrite item_np_pad. unfold within.
    rewrite !Nat.sub_0_r. cbn [Nat.leb Nat.add andb].
    apply Nat.ltb_lt in Hi, Hj, Hk, Hl. now rewrite Hi, Hj, Hk, Hl.
Qed.

(** Padding twice is padding once, with the widths added. *)
Lemma np_pad_np_pad {A} (z : A) (a : ndarray A)
    p0 q0 p1 q1 p2 q2 p3 q3 r0 s0 r1 s1 r2 s2 r3 s3 :
  same_array
    (np_pad z (np_pad z a ((p0, q0), (p1, q1), (p2, q2), (p3, q3)))
            ((r0, s0), (r1, s1), (r2, s2), (r3, s3)))
    (np_pad z a ((p0 + r0, q0 + s0), (p1 + r1, q1 + s1),
                 (p2 + r2, q2 + s2), (p3 + r3, q3 + s3))).
Proof.
  split.
  - apply shape_eq_dims; dims; lia.
  - intros i j k l _ _ _ _. rewrite !item_np_pad. dims.
    rewrite <- (within_nested r0 p0 (dim0 a) q0 i),
            <- (within_nested r1 p1 (dim1 a) q1 j),
            <- (within_nested r2 p2 (dim2 a) q2 k),
            <- (within_nested r3 p3 (dim3 a) q3 l).
    repeat match goal with
           | |- context [within ?b ?n ?x] => destruct (within b n x)
           end; cbn [andb]; try reflexivity.
    f_equal; lia.
Qed.

Lemma np_pad_widths {A} (z : A) (a : ndarray A) W1 W2 :
  W1 = W2 -> same_array (np_pad z a W1) (np_pad z a W2).
Proof. intros ->. apply same_array_refl. Qed.

Ltac flatten_pads :=
  cbn [fst snd];
  match goal with
  | |- same_array (np_pad _ _ _) _ =>
      repeat (eapply same_array_trans; [apply np_pad_np_pad|])
  | |- _ => eapply same_array_trans; [apply np_pad_nothing|]
  end;
  apply np_pad_widths; repeat f_equal; lia.

(** The three steps together are one [np.pad], the same for both arrays. *)
Lemma pad_movie_np_pad max_frames max_y max_x (raw : ndarray V) (tracked : ndarray Z) :
  dim0 raw <= max_frames -> dim1 raw <= max_y -> dim2 raw <= max_x ->
  same_array (fst (pad_movie zero max_frames max_y max_x raw tracked))
             (np_pad zero raw (total_pad_width max_frames max_y max_x raw)) /\
  same_array (snd (pad_movie zero max_frames max_y max_x raw tracked))
             (np_pad 0%Z tracked (total_pad_width max_frames max_y max_x raw)).
Proof.
  intros H0 H1 H2. unfold total_pad_width, leading, trailing.
  pose proof (half_split (max_y - dim1 raw)) as Hy.
  pose proof (half_split (max_x - dim2 raw)) as Hx.
  remember (max_frames - dim0 raw) as df eqn:Edf.
  remember (max_y - dim1 raw) as dy eqn:Edy.
  remember (int_half dy + dy mod 2) as top eqn:Etop.
  remember (int_half dy) as bot eqn:Ebot.
  remember (max_x - dim2 raw) as dx eqn:Edx.
  remember (int_half dx + dx mod 2) as left eqn:Eleft.
  remember (int_half dx) as right eqn:Eright.
  unfold pad_movie.
  pose proof (pad_y_spec max_y raw tracked H1) as Py. cbv zeta in Py.
  rewrite <- Edy, <- Ebot, <- Etop in Py.
  destruct Py as [[-> Ey]| ->]; cbv beta iota.
  all: match goal with
       | |- context [pad_x _ _ ?r ?t] =>
           pose proof (pad_x_spec max_x r t) as Px; cbv zeta in Px;
           rewrite ?dim2_np_pad, ?Nat.add_0_l, ?Nat.add_0_r in Px;
           specialize (Px H2);
           rewrite <- Edx, <- Eright, <- Eleft in Px;
           destruct Px as [[-> Ex]| ->]; cbv beta iota
       end.
  all: match goal with
       | |- context [pad_frames _ _ ?r ?t] =>
           pose proof (pad_frames_spec max_frames r t) as Pf; cbv zeta in Pf;
           rewrite ?dim0_np_pad, ?Nat.add_0_l, ?Nat.add_0_r in Pf;
           specialize (Pf H0);
           rewrite <- Edf in Pf;
           destruct Pf as [[-> Ef]| ->]
       end.
  all: clear Etop Ebot Eleft Eright.
  all: split; flatten_pads.
Qed.

Lemma dims_of_shape {A} (a : ndarray A) d0 d1 d2 d3 :
  shape a = (d0, d1, d2, d3) ->
  dim0 a = d0 /\ dim1 a = d1 /\ dim2 a = d2 /\ dim3 a = d3.
Proof. unfold dim0, dim1, dim2, dim3. now intros ->. Qed.

(** The elements of an array padded before the y and x axes and after
    all but the last. *)
Lemma item_padded {A} (z : A) (a : ndarray A) f top bottom left right i j k l :
  l < dim3 a ->
  item (np_pad z a ((0, f), (top, bottom), (left, right), (0, 0))) i j k l
  = if (i <? dim0 a) && within top (dim1 a) j && within left (dim2 a) k
    then item a i (j - top) (k - left) l else z.
Proof.
  intros Hl. rewrite item_np_pad. unfold within at 1 4.
  cbn [Nat.leb Nat.add andb]. rewrite !Nat.sub_0_r.
  apply Nat.ltb_lt in Hl. now rewrite Hl, andb_true_r.
Qed.

(** C8.  A movie whose frame count, height and width (shared by [raw]
    and [tracked]) are at most the maxima comes out of the padding
    steps with the shape (max_frames, max_y, max_x, channels); both
    arrays are the original padded with zeros by the same widths: no
    frame before and the missing ones after, and along each of y and x
    [pad_width] after and [pad_width], or [pad_width + 1] when the
    deficit is odd, before.  Element by element: the original sits at
    the offsets (0, top, left), and zero is everywhere else. *)
Theorem padding_to_maxima max_frames max_y max_x
    (raw : ndarray V) (tracked : ndarray Z) :
  dim0 raw <= max_frames -> dim1 raw <= max_y -> dim2 raw <= max_x ->
  dim0 tracked = dim0 raw -> dim1 tracked = dim1 raw -> dim2 tracked = dim2 raw ->
  let raw' := fst (pad_movie zero max_frames max_y max_x raw tracked) in
  let tracked' := snd (pad_movie zero max_frames max_y max_x raw tracked) in
  let dy := max_y - dim1 raw in
  let dx := max_x - dim2 raw in
  let top := int_half dy + dy mod 2 in
  let left := int_half dx + dx mod 2 in
  let pad_width :=
    ((0, max_frames - dim0 raw), (top, int_half dy), (left, int_half dx), (0, 0)) in
  shape raw' = (max_frames, max_y, max_x, dim3 raw) /\
  shape tracked' = (max_frames, max_y, max_x, dim3 tracked) /\
  same_array raw' (np_pad zero raw pad_width) /\
  same_array tracked' (np_pad 0%Z tracked pad_width) /\
  (forall i j k l,
      i < max_frames -> j < max_y -> k < max_x -> l < dim3 raw ->
      item raw' i j k l
      = if (i <? dim0 raw) && within top (dim1 raw) j && within left (dim2 raw) k
        then item raw i (j - top) (k - left) l else zero) /\
  (forall i j k l,
      i < max_frames -> j < max_y -> k < max_x -> l < dim3 tracked ->
      item tracked' i j k l
      = if (i <? dim0 tracked) && within top (dim1 tracked) j
           && within left (dim2 tracked) k
        then item tracked i (j - top) (k - left) l else 0%Z) /\
  (dy mod 2 = 1 -> top = int_half dy + 1) /\
  (dx mod 2 = 1 -> left = int_half dx + 1) /\
  (dy mod 2 = 0 -> top = int_half dy) /\
  (dx mod 2 = 0 -> left = int_half dx).
Proof.
  intros H0 H1 H2 E0 E1 E2 raw' tracked' dy dx top left pad_width.
  destruct (pad_movie_np_pad max_frames max_y max_x raw tracked H0 H1 H2)
    as [Hraw Htracked].
  fold raw' in Hraw. fold tracked' in Htracked.
  change (total_pad_width max_frames max_y max_x raw) with pad_width in Hraw, Htracked.
  pose proof (half_split dy) as Hy. pose proof (half_split dx) as Hx.
  fold top in Hy. fold left in Hx.
  assert (Sraw : shape raw' = (max_frames, max_y, max_x, dim3 raw)).
  { rewrite (proj1 Hraw). unfold pad_width.
    apply shape_is; dims; subst dy dx; lia. }
  assert (Stracked : shape tracked' = (max_frames, max_y, max_x, dim3 tracked)).
  { rewrite (proj1 Htracked). unfold pad_width.
    apply shape_is; dims; subst dy dx; lia. }
  destruct (dims_of_shape _ _ _ _ _ Sraw) as (R0 & R1 & R2 & R3).
  destruct (dims_of_shape _ _ _ _ _ Stracked) as (T0 & T1 & T2 & T3).
  split; [exact Sraw|]. split; [exact Stracked|].
  split; [exact Hraw|]. split; [exact Htracked|].
  split; [|split].
  - intros i j k l Hi Hj Hk Hl.
    rewrite (proj2 Hraw) by lia. now apply item_padded.
  - intros i j k l Hi Hj Hk Hl.
    rewrite (proj2 Htracked) by lia. now apply item_padded.
  - unfold top, left. repeat split; intros ->; lia.
Qed.

(** The dimensions of [raw] after each step, whatever its size. *)
Lemma pad_y_dims max_y (raw : ndarray V) (tracked : ndarray Z) :
  let r := fst (pad_y zero max_y raw tracked) in
  dim0 r = dim0 raw /\ dim1 r = Nat.max max_y (dim1 raw) /\
  dim2 r = dim2 raw /\ dim3 r = dim3 raw.
Proof.
  cbv zeta. unfold pad_y, int_half in *.
  pose proof (Nat.div_mod_eq (max_y - dim1 raw) 2) as Hy.
  pose proof (mod2_cases (max_y - dim1 raw)) as Hm.
  destruct (dim1 raw <? max_y) eqn:E; bools; cbn [fst].
  - destruct ((max_y - dim1 raw) mod 2 =? 0) eqn:E2; bools; cbn [fst]; dims; lia.
  - lia.
Qed.

Lemma pad_x_dims max_x (raw : ndarray V) (tracked : ndarray Z) :
  let r := fst (pad_x zero max_x raw tracked) in
  dim0 r = dim0 raw /\ dim1 r = dim1 raw /\
  dim2 r = Nat.max max_x (dim2 raw) /\ dim3 r = dim3 raw.
Proof.
  cbv zeta. unfold pad_x, int_half in *.
  pose proof (Nat.div_mod_eq (max_x - dim2 raw) 2) as Hx.
  pose proof (mod2_cases (max_x - dim2 raw)) as Hm.
  destruct (dim2 raw <? max_x) eqn:E; bools; cbn [fst].
  - destruct ((max_x - dim2 raw) mod 2 =? 0) eqn:E2; bools; cbn [fst]; dims; lia.
  - lia.
Qed.

Lemma pad_frames_dims max_frames (raw : ndarray V) (tracked : ndarray Z) :
  let r := fst (pad_frames zero max_frames raw tracked) in
  dim0 r = Nat.max max_frames (dim0 raw) /\ dim1 r = dim1 raw /\
  dim2 r = dim2 raw /\ dim3 r = dim3 raw.
Proof.
  cbv zeta. unfold pad_frames.
  destruct (dim0 raw <? max_frames) eqn:E; bools; cbn [fst]; dims; lia.
Qed.

Lemma pad_movie_shape max_frames max_y max_x (raw : ndarray V) (tracked : ndarray Z) :
  shape (fst (pad_movie zero max_frames max_y max_x raw tracked))
  = (Nat.max max_frames (dim0 raw), Nat.max max_y (dim1 raw),
     Nat.max max_x (dim2 raw), dim3 raw).
Proof.
  unfold pad_movie.
  pose proof (pad_y_dims max_y raw tracked) as Py. cbv zeta in Py.
  destruct (pad_y zero max_y raw tracked) as [r1 t1]. cbn [fst] in Py.
  pose proof (pad_x_dims max_x r1 t1) as Px. cbv zeta in Px.
  destruct (pad_x zero max_x r1 t1) as [r2 t2]. cbn [fst] in Px.
  pose proof (pad_frames_dims max_frames r2 t2) as Pf. cbv zeta in Pf.
  cbv beta iota. apply shape_is; lia.
Qed.

(** One turn of the loop looks at the first movie only. *)
Lemma update_max_first m (t t' : trks V L) :
  hd_error (X t) = hd_error (X t') -> update_max m t = update_max m t'.
Proof.
  unfold update_max. destruct (X t) as [|x0 xs], (X t') as [|x0' xs']; cbn;
    intros [=]; subst; reflexivity.
Qed.

Lemma max_loop_first (files files' : list (trks V L)) m :
  map (fun t => hd_error (X t)) files = map (fun t => hd_error (X t)) files' ->
  max_loop files m = max_loop files' m.
Proof.
  revert files' m. induction files as [|t files IH]; intros [|t' files'] m; cbn;
    try discriminate; trivial.
  intros [= Ht Hrest]. rewrite (update_max_first m t t' Ht).
  destruct (update_max m t'); trivial. now apply IH.
Qed.

Lemma max_loop_value (files : list (trks V L)) (firsts : list (ndarray V)) m0 m1 m2 :
  map (fun t => hd_error (X t)) files = map Some firsts ->
  max_loop files (m0, m1, m2)
  = Some (fold_left Nat.max (map dim0 firsts) m0,
          fold_left Nat.max (map dim1 firsts) m1,
          fold_left Nat.max (map dim2 firsts) m2).
Proof.
  revert firsts m0 m1 m2.
  induction files as [|t files IH]; intros [|x0 firsts] m0 m1 m2; cbn;
    try discriminate; trivial.
  intros [= Ht Hrest]. unfold update_max.
  destruct (X t) as [|x xs]; cbn in Ht; [discriminate|]. injection Ht as ->.
  rewrite (IH _ _ _ _ Hrest). repeat f_equal.
  - destruct (m0 <? dim0 x0) eqn:E; bools; lia.
  - destruct (m1 <? dim1 x0) eqn:E; bools; lia.
  - destruct (m2 <? dim2 x0) eqn:E; bools; lia.
Qed.

(** C9.  The maxima are the largest dimensions among the first movies
    of the files and the starting value 1; files that agree on their
    first movies give the same maxima, so no later movie contributes;
    and a movie that is larger than a maximum along some axis keeps
    its size along that axis through the padding steps. *)
Theorem maxima_from_first_movies (files : list (trks V L)) :
  (forall firsts,
      map (fun t => hd_error (X t)) files = map Some firsts ->
      max_dimensions files
      = Some (fold_left Nat.max (map dim0 firsts) 1,
              fold_left Nat.max (map dim1 firsts) 1,
              fold_left Nat.max (map dim2 firsts) 1)) /\
  (forall files' : list (trks V L),
      map (fun t => hd_error (X t)) files = map (fun t => hd_error (X t)) files' ->
      max_dimensions files = max_dimensions files') /\
  max_dimensions files = max_dimensions (map (@first_only V L) files) /\
  (forall max_frames max_y max_x raw tracked,
      max_dimensions files = Some (max_frames, max_y, max_x) ->
      let raw' := fst (pad_movie zero max_frames max_y max_x raw tracked) in
      (max_frames < dim0 raw -> dim0 raw' = dim0 raw /\ dim0 raw' <> max_frames) /\
      (max_y < dim1 raw -> dim1 raw' = dim1 raw /\ dim1 raw' <> max_y) /\
      (max_x < dim2 raw -> dim2 raw' = dim2 raw /\ dim2 raw' <> max_x)).
Proof.
  split; [|split; [|split]].
  - intros firsts H. now apply max_loop_value.
  - intros files' H. now apply max_loop_first.
  - apply max_loop_first. rewrite map_map. apply map_ext.
    intros t. cbn. now destruct (X t).
  - intros max_frames max_y max_x raw tracked _ raw'.
    pose proof (pad_movie_shape max_frames max_y max_x raw tracked) as S.
    fold raw' in S. rewrite (shape_dims raw') in S. injection S as S0 S1 S2 S3.
    repeat split; lia.
Qed.

End PreprocessFacts.

Lemma padding_to_maxima_witness :
  (Notebook.dim0 Notebook.demo_raw <= 2 /\
   Notebook.dim1 Notebook.demo_raw <= 5 /\
   Notebook.dim2 Notebook.demo_raw <= 2)%nat /\
  Notebook.shape
    (fst (Notebook.pad_movie 0%Z 2 5 2 Notebook.demo_raw Notebook.demo_tracked))
  = (2, 5, 2, 1)%nat /\
  Notebook.shape
    (snd (Notebook.pad_movie 0%Z 2 5 2 Notebook.demo_raw Notebook.demo_tracked))
  = (2, 5, 2, 1)%nat.
Proof.
  assert (H0 : (Notebook.dim0 Notebook.demo_raw <= 2)%nat) by (vm_compute; lia).
  assert (H1 : (Notebook.dim1 Notebook.demo_raw <= 5)%nat) by (vm_compute; lia).
  assert (H2 : (Notebook.dim2 Notebook.demo_raw <= 2)%nat) by (vm_compute; lia).
  split; [now repeat split|].
  destruct (padding_to_maxima Z 0%Z 2 5 2 Notebook.demo_raw Notebook.demo_tracked
              H0 H1 H2 eq_refl eq_refl eq_refl) as (Sraw & Stracked & _).
  split; [exact Sraw | exact Stracked].
Defined.

Lemma maxima_from_first_movies_witness :
  Notebook.max_dimensions [Notebook.demo_trks] = Some (1, 2, 1)%nat /\
  Notebook.dim2 Notebook.demo_wide = 4%nat /\
  Notebook.dim2
    (fst (Notebook.pad_movie 0%Z 1 2 1 Notebook.demo_wide Notebook.demo_wide))
  = 4%nat.
Proof.
  destruct (maxima_from_first_movies Z unit 0%Z [Notebook.demo_trks])
    as (Hvalue & _ & _ & Hlarger).
  pose proof (Hvalue [Notebook.demo_raw] eq_refl) as Hmax.
  split; [exact Hmax|]. split; [reflexivity|].
  destruct (Hlarger 1 2 1 Notebook.demo_wide Notebook.demo_wide Hmax)%nat
    as (_ & _ & Hx).
  apply Hx. vm_compute. lia.
Defined.

(** ** The notebook: file paths *)

Section PathFacts.
Import Text PosixPath.

Lemma append_assoc (a b c : string) : ((a ++ b) ++ c = a ++ (b ++ c))%string.
Proof. induction a as [|x a IH]; cbn; [reflexivity|now rewrite IH]. Qed.

Lemma split_char_nonnil c s : split_char c s <> [].
Proof.
  destruct s as [|a s]; cbn; [discriminate|].
  destruct (Ascii.eqb a c); [discriminate|].
  destruct (split_char c s); discriminate.
Qed.

Lemma split_char_app c s t :
  split_char c (s ++ String c t) = split_char c s ++ split_char c t.
Proof.
  induction s as [|a s IH]; cbn.
  - now rewrite Ascii.eqb_refl.
  - destruct (Ascii.eqb a c); [now rewrite IH|].
    rewrite IH. pose proof (split_char_nonnil c s).
    destruct (split_char c s); [contradiction|reflexivity].
Qed.

Lemma prefix_nil s : prefix "" s = true.
Proof. now destruct s. Qed.

Lemma slash_free_cons a s :
  slash_free (String a s) <-> Ascii.eqb a slash = false /\ slash_free s.
Proof.
  unfold slash_free. cbn [contains]. rewrite orb_false_iff.
  cbn [prefix]. unfold slash. rewrite prefix_nil.
  destruct (ascii_dec "/" a) as [<-|Hne].
  - rewrite Ascii.eqb_refl. split; intros [H _]; discriminate.
  - destruct (Ascii.eqb a "/") eqn:E.
    + apply Ascii.eqb_eq in E. now subst.
    + tauto.
Qed.

Lemma split_char_slash_free s : slash_free s -> split_char slash s = [s].
Proof.
  induction s as [|a s IH]; intros H; [reflexivity|].
  apply slash_free_cons in H. destruct H as [Ha Hs].
  cbn. rewrite Ha, (IH Hs). reflexivity.
Qed.


Lemma ends_with_char_inv c s :
  ends_with_char c s = true -> exists s', s = (s' ++ String c "")%string.
Proof.
  induction s as [|a s IH]; cbn; [discriminate|].
  destruct s as [|b s].
  - intros H. apply Ascii.eqb_eq in H. subst. now exists "".
  - intros H. destruct (IH H) as [s' E]. exists (String a s'). cbn. now rewrite <- E.
Qed.

Lemma ends_with_char_app c s t :
  t <> "" -> ends_with_char c (s ++ t) = ends_with_char c t.
Proof.
  intros Ht. induction s as [|a s IH]; [reflexivity|].
  cbn [String.append ends_with_char].
  destruct (s ++ t)%string eqn:E.
  - destruct s; cbn in E; [contradiction|discriminate].
  - exact IH.
Qed.

Lemma ends_with_slash_free s : slash_free s -> ends_with_char slash s = false.
Proof.
  induction s as [|a s IH]; intros H; [reflexivity|].
  apply slash_free_cons in H. destruct H as [Ha Hs].
  cbn. destruct s; [exact Ha|]. now apply IH.
Qed.

Lemma ne_comps_nil : ne_comps "" = [].
Proof. reflexivity. Qed.

Lemma ne_comps_app s t :
  ne_comps (s ++ String slash t) = ne_comps s ++ ne_comps t.
Proof. unfold ne_comps. now rewrite split_char_app, filter_app. Qed.

Lemma ne_comps_join2 a b :
  starts_with "/" b = false -> ne_comps (join2 a b) = ne_comps a ++ ne_comps b.
Proof.
  intros Hb. unfold join2. rewrite Hb.
  destruct (String.eqb a "") eqn:Ea.
  - apply String.eqb_eq in Ea. subst. reflexivity.
  - cbn [orb]. destruct (ends_with_char slash a) eqn:Ee.
    + destruct (ends_with_char_inv _ _ Ee) as [s' ->].
      rewrite append_assoc. cbn [String.append].
      rewrite !ne_comps_app, ne_comps_nil, app_nil_r. reflexivity.
    + change (a ++ "/" ++ b)%string with (a ++ String slash b)%string.
      apply ne_comps_app.
Qed.

Lemma prefix_app_long p a t :
  String.length p <= String.length a -> prefix p (a ++ t) = prefix p a.
Proof.
  revert a. induction p as [|x p IH]; intros a H.
  - now rewrite !prefix_nil.
  - destruct a as [|y a]; cbn in H; [lia|]. cbn.
    destruct (ascii_dec x y); [|reflexivity]. apply IH. lia.
Qed.

Lemma join2_app a b :
  starts_with "/" b = false -> a <> "" ->
  exists t, join2 a b = (a ++ t)%string /\ starts_with "/" t = negb (ends_with_char slash a).
Proof.
  intros Hb Ha. unfold join2. rewrite Hb.
  destruct (String.eqb a "") eqn:Ea; [apply String.eqb_eq in Ea; contradiction|].
  cbn [orb]. destruct (ends_with_char slash a) eqn:Ee.
  - exists b. split; [reflexivity|exact Hb].
  - exists ("/" ++ b)%string. split; [reflexivity|].
    unfold starts_with. cbn. now rewrite prefix_nil.
Qed.

Lemma prefix_cons_slash s : prefix "/" s = true -> exists s', s = String slash s'.
Proof. intros H. destruct (prefix_inv _ _ H) as [t ->]. now exists t. Qed.

Lemma initial_slashes_join2 a b :
  isabs a = true -> starts_with "/" b = false ->
  initial_slashes (join2 a b) = initial_slashes a.
Proof.
  intros Ha Hb.
  destruct (join2_app a b Hb) as (t & -> & Ht).
  { intros ->. discriminate. }
  unfold isabs, starts_with in *. unfold initial_slashes, starts_with.
  rewrite !(prefix_app_long "/" a t), Ha
    by (destruct a; [discriminate|cbn; lia]).
  destruct (prefix_cons_slash _ Ha) as [a1 ->]. clear Ha.
  assert (Hcons : forall u s, prefix "/" (String u s) = Ascii.eqb u slash).
  { intros u s. cbn [prefix]. rewrite prefix_nil. unfold slash.
    destruct (ascii_dec "/" u) as [<-|Hne]; [reflexivity|].
    symmetry. apply Ascii.eqb_neq. congruence. }
  assert (Hstep : forall u s p, prefix (String slash p) (String u s)
                                = Ascii.eqb u slash && prefix p s).
  { intros u s p. cbn [prefix]. unfold slash.
    destruct (ascii_dec "/" u) as [<-|Hne]; [reflexivity|].
    symmetry. apply andb_false_iff. left. apply Ascii.eqb_neq. congruence. }
  change "//" with (String slash (String slash "")).
  change "///" with (String slash (String slash (String slash ""))).
  destruct a1 as [|y [|z a3]]; cbn [String.append].
  - rewrite !Hstep, Ascii.eqb_refl. cbn [andb].
    cbn [ends_with_char] in Ht. rewrite Ascii.eqb_refl in Ht. cbn in Ht.
    change (String slash "") with "/". rewrite Ht. reflexivity.
  - rewrite !Hstep, Ascii.eqb_refl, !prefix_nil. cbn [andb].
    destruct (Ascii.eqb y slash) eqn:Ey; [|reflexivity].
    apply Ascii.eqb_eq in Ey. subst y. cbn [andb].
    cbn [ends_with_char] in Ht. rewrite Ascii.eqb_refl in Ht. cbn in Ht.
    change (String slash "") with "/". rewrite Ht. reflexivity.
  - rewrite !Hstep, !prefix_nil. reflexivity.
Qed.


Lemma fold_norm_filter k l acc :
  fold_left (norm_step k) (filter nonempty l) acc = fold_left (norm_step k) l acc.
Proof.
  revert acc. induction l as [|c l IH]; intros acc; [reflexivity|].
  cbn [filter fold_left]. unfold nonempty at 1.
  destruct (String.eqb c "") eqn:E; cbn [negb fold_left].
  - apply String.eqb_eq in E. subst c. apply IH.
  - apply IH.
Qed.

Lemma proper_component_inv c :
  proper_component c = true ->
  String.eqb c "" = false /\ String.eqb c "." = false /\
  String.eqb c ".." = false /\ contains "/" c = false.
Proof.
  unfold proper_component, nonempty. rewrite !andb_true_iff, !negb_true_iff. tauto.
Qed.

Lemma norm_step_proper k acc c :
  proper_component c = true -> norm_step k acc c = acc ++ [c].
Proof.
  intros H. destruct (proper_component_inv c H) as (E0 & E1 & E2 & _).
  unfold norm_step. now rewrite E0, E1, E2.
Qed.

Lemma fold_norm_proper k l acc :
  forallb proper_component l = true -> fold_left (norm_step k) l acc = acc ++ l.
Proof.
  revert acc. induction l as [|c l IH]; intros acc H; cbn.
  - now rewrite app_nil_r.
  - cbn in H. apply andb_true_iff in H. destruct H as [Hc Hl].
    rewrite (norm_step_proper k acc c Hc), (IH _ Hl), <- app_assoc. reflexivity.
Qed.

Lemma forallb_removelast {A} (f : A -> bool) l :
  forallb f l = true -> forallb f (removelast l) = true.
Proof.
  induction l as [|a l IH]; [trivial|]. cbn. intros H.
  apply andb_true_iff in H. destruct H as [Ha Hl].
  destruct l; [reflexivity|]. cbn [forallb]. rewrite Ha. now apply IH.
Qed.

Lemma proper_last acc :
  forallb proper_component acc = true -> acc <> [] ->
  String.eqb (last acc "") ".." = false.
Proof.
  induction acc as [|a acc IH]; intros H Hne; [contradiction|].
  cbn in H. apply andb_true_iff in H. destruct H as [Ha Hacc].
  destruct acc as [|b acc].
  - cbn. now destruct (proper_component_inv a Ha) as (_ & _ & E & _).
  - apply IH; [assumption|discriminate].
Qed.

Lemma norm_step_keeps k acc c :
  1 <= k -> contains "/" c = false ->
  forallb proper_component acc = true ->
  forallb proper_component (norm_step k acc c) = true.
Proof.
  intros Hk Hc Hacc. unfold norm_step.
  destruct (String.eqb c "") eqn:E0; [assumption|].
  destruct (String.eqb c ".") eqn:E1; [assumption|]. cbn [orb].
  destruct (String.eqb c "..") eqn:E2; cbn [negb orb].
  - destruct k as [|k]; [lia|]. cbn [Nat.eqb andb orb].
    destruct acc as [|a acc]; [reflexivity|].
    rewrite (proper_last (a :: acc) Hacc) by discriminate.
    now apply forallb_removelast.
  - rewrite forallb_app, Hacc. cbn. unfold proper_component, nonempty.
    now rewrite E0, E1, E2, Hc.
Qed.

Lemma fold_norm_keeps k l acc :
  1 <= k -> (forall c, In c l -> contains "/" c = false) ->
  forallb proper_component acc = true ->
  forallb proper_component (fold_left (norm_step k) l acc) = true.
Proof.
  intros Hk. revert acc. induction l as [|c l IH]; intros acc Hl Hacc; [assumption|].
  cbn. apply IH.
  - intros c' Hc'. apply Hl. now right.
  - apply norm_step_keeps; trivial. apply Hl. now left.
Qed.

Lemma split_char_slash_free_parts s c :
  In c (split_char slash s) -> contains "/" c = false.
Proof.
  revert c. induction s as [|a s IH]; intros c; cbn.
  - intros [<-|[]]. reflexivity.
  - destruct (Ascii.eqb a slash) eqn:E.
    + intros [<-|H]; [reflexivity|now apply IH].
    + pose proof (split_char_nonnil slash s) as Hne.
      destruct (split_char slash s) as [|w ws]; [contradiction|].
      intros [<-|H].
      * apply slash_free_cons. split; [assumption|]. apply IH. now left.
      * apply IH. now right.
Qed.

Lemma initial_slashes_abs p : isabs p = true -> 1 <= initial_slashes p <= 2.
Proof.
  unfold isabs, initial_slashes. intros ->.
  destruct (starts_with "//" p && negb (starts_with "///" p)); lia.
Qed.

Lemma norm_comps_proper p :
  isabs p = true -> forallb proper_component (norm_comps p) = true.
Proof.
  intros H. unfold norm_comps. apply fold_norm_keeps.
  - now apply initial_slashes_abs.
  - intros c. apply split_char_slash_free_parts.
  - reflexivity.
Qed.


Lemma ne_comps_proper c : proper_component c = true -> ne_comps c = [c].
Proof.
  intros H. destruct (proper_component_inv c H) as (E0 & _ & _ & Hs).
  unfold ne_comps. rewrite (split_char_slash_free c Hs). cbn.
  unfold nonempty. now rewrite E0.
Qed.

Lemma ne_comps_join_char l :
  forallb proper_component l = true -> ne_comps (join_char slash l) = l.
Proof.
  induction l as [|c l IH]; intros H; [reflexivity|].
  cbn in H. apply andb_true_iff in H. destruct H as [Hc Hl].
  destruct l as [|d l].
  - cbn. now apply ne_comps_proper.
  - change (join_char slash (c :: d :: l))
      with (c ++ String slash (join_char slash (d :: l)))%string.
    rewrite ne_comps_app, (ne_comps_proper c Hc), (IH Hl).
    reflexivity.
Qed.

Lemma ne_comps_slashes k s : ne_comps (slashes k ++ s) = ne_comps s.
Proof.
  induction k as [|k IH]; [reflexivity|].
  cbn [slashes String.append].
  change (String slash (slashes k ++ s)) with ("" ++ String slash (slashes k ++ s))%string.
  now rewrite ne_comps_app, ne_comps_nil, IH.
Qed.

Lemma render_abs k l :
  1 <= k -> render k l = (slashes k ++ join_char slash l)%string.
Proof. intros H. unfold render. destruct k; [lia|reflexivity]. Qed.

Lemma ne_comps_render k l :
  1 <= k -> forallb proper_component l = true -> ne_comps (render k l) = l.
Proof.
  intros Hk Hl. rewrite (render_abs k l Hk), ne_comps_slashes.
  now apply ne_comps_join_char.
Qed.

Lemma join_char_no_leading_slash l :
  forallb proper_component l = true -> prefix "/" (join_char slash l) = false.
Proof.
  destruct l as [|c l]; [reflexivity|]. cbn [forallb]. intros H.
  apply andb_true_iff in H. destruct H as [Hc _].
  destruct (proper_component_inv c Hc) as (E0 & _ & _ & Hs).
  destruct c as [|a c]; [discriminate|].
  apply slash_free_cons in Hs. destruct Hs as [Ha _].
  assert (Hp : forall t, prefix "/" (String a t) = false).
  { intros t. cbn [prefix]. destruct (ascii_dec "/" a) as [<-|]; [|reflexivity].
    discriminate. }
  destruct l; cbn [join_char String.append]; apply Hp.
Qed.

Lemma initial_slashes_render k l :
  1 <= k <= 2 -> forallb proper_component l = true ->
  initial_slashes (render k l) = k.
Proof.
  intros Hk Hl. rewrite (render_abs k l) by lia.
  pose proof (join_char_no_leading_slash l Hl) as Hj.
  unfold initial_slashes, starts_with.
  destruct k as [|[|[|k]]]; try lia; cbn [slashes String.append prefix];
    destruct (ascii_dec "/" slash) as [_|Hne]; try (now destruct Hne).
  - rewrite prefix_nil.
    destruct (join_char slash l) as [|u t]; [reflexivity|].
    cbn [prefix] in Hj |- *. rewrite prefix_nil in *.
    destruct (ascii_dec "/" u); [discriminate|reflexivity].
  - rewrite prefix_nil. cbn [prefix] in Hj.
    destruct (join_char slash l) as [|u t]; [reflexivity|].
    cbn [prefix] in Hj |- *. rewrite prefix_nil in *.
    destruct (ascii_dec "/" u); [discriminate|reflexivity].
Qed.

Lemma isabs_render k l : 1 <= k -> isabs (render k l) = true.
Proof.
  intros Hk. rewrite (render_abs k l Hk). destruct k; [lia|].
  unfold isabs, starts_with. cbn. apply prefix_nil.
Qed.

Lemma normpath_abs p :
  isabs p = true -> normpath p = render (initial_slashes p) (norm_comps p).
Proof.
  intros H. unfold normpath. destruct p; [discriminate|reflexivity].
Qed.

Lemma norm_comps_ne p :
  norm_comps p = fold_left (norm_step (initial_slashes p)) (ne_comps p) [].
Proof. unfold norm_comps, ne_comps. now rewrite fold_norm_filter. Qed.

Lemma normpath_render k l :
  1 <= k <= 2 -> forallb proper_component l = true ->
  normpath (render k l) = render k l.
Proof.
  intros Hk Hl. rewrite normpath_abs by (apply isabs_render; lia).
  rewrite norm_comps_ne, (initial_slashes_render k l Hk Hl).
  rewrite (ne_comps_render k l) by (trivial; lia).
  now rewrite fold_norm_proper.
Qed.


Lemma isabs_join2 a b : starts_with "/" b = false -> isabs (join2 a b) = isabs a.
Proof.
  intros Hb. destruct a as [|x a].
  - unfold join2. rewrite Hb. cbn. exact Hb.
  - destruct (join2_app (String x a) b Hb) as (t & -> & _); [discriminate|].
    unfold isabs, starts_with. apply prefix_app_long. cbn. lia.
Qed.

Variable cwd : string.
Hypothesis cwd_abs : isabs cwd = true.

Lemma abspath_abs_of p : abspath cwd p = normpath (abs_of cwd p).
Proof. reflexivity. Qed.

Lemma isabs_abs_of p : isabs (abs_of cwd p) = true.
Proof.
  unfold abs_of. destruct (isabs p) eqn:E; [assumption|].
  cbn [join fold_left]. now rewrite isabs_join2.
Qed.

Lemma abs_of_join2 a b :
  starts_with "/" b = false ->
  ne_comps (abs_of cwd (join2 a b)) = ne_comps (abs_of cwd a) ++ ne_comps b /\
  initial_slashes (abs_of cwd (join2 a b)) = initial_slashes (abs_of cwd a).
Proof.
  intros Hb. unfold abs_of. rewrite (isabs_join2 a b Hb).
  destruct (isabs a) eqn:Ea.
  - split; [now apply ne_comps_join2|now apply initial_slashes_join2].
  - cbn [join fold_left].
    assert (Hab : starts_with "/" (join2 a b) = false)
      by (transitivity (isabs a); [apply (isabs_join2 a b Hb)|exact Ea]).
    split.
    + rewrite (ne_comps_join2 cwd _ Hab), (ne_comps_join2 a b Hb),
        (ne_comps_join2 cwd a Ea). apply app_assoc.
    + now rewrite !initial_slashes_join2.
Qed.

Lemma abspath_render p :
  abspath cwd p = render (initial_slashes (abs_of cwd p)) (norm_comps (abs_of cwd p)).
Proof. rewrite abspath_abs_of. apply normpath_abs, isabs_abs_of. Qed.

Lemma components_abs p : components cwd p = norm_comps (abs_of cwd p).
Proof.
  unfold components. rewrite abspath_render.
  apply ne_comps_render.
  - apply initial_slashes_abs, isabs_abs_of.
  - apply norm_comps_proper, isabs_abs_of.
Qed.


(** *** The prefix of the data file *)

Lemma append_nonempty s t : t <> "" -> (s ++ t)%string <> "".
Proof. intros Ht. destruct s; [exact Ht|discriminate]. Qed.

Lemma eqb_append_nonempty s t : t <> "" -> String.eqb (s ++ t) "" = false.
Proof. intros Ht. apply String.eqb_neq. now apply append_nonempty. Qed.

Lemma rstrip_char_app c s t :
  rstrip_char c t <> "" -> rstrip_char c (s ++ t) = (s ++ rstrip_char c t)%string.
Proof.
  intros Ht. induction s as [|a s IH]; [reflexivity|].
  cbn [String.append rstrip_char]. rewrite IH.
  destruct (s ++ rstrip_char c t)%string eqn:E; [|reflexivity].
  now destruct (append_nonempty s _ Ht).
Qed.

Lemma all_slashes_app s t : all_slashes (s ++ t) = all_slashes s && all_slashes t.
Proof.
  unfold all_slashes. induction s as [|a s IH]; [reflexivity|].
  cbn. rewrite IH. apply andb_assoc.
Qed.

Lemma dir_part_slash_free f : slash_free f -> dir_part f = "".
Proof.
  induction f as [|a f IH]; intros H; [reflexivity|].
  apply slash_free_cons in H. destruct H as [Ha Hf].
  cbn. now rewrite (IH Hf), Ha.
Qed.

Lemma dir_part_app d f :
  slash_free f -> dir_part (d ++ String slash f) = (d ++ "/")%string.
Proof.
  intros Hf. induction d as [|a d IH].
  - cbn [String.append dir_part]. now rewrite (dir_part_slash_free f Hf).
  - cbn [String.append dir_part]. rewrite IH.
    destruct (d ++ "/")%string eqn:E; [|reflexivity].
    now destruct d.
Qed.

Lemma commonprefix_length_refl l :
  commonprefix_length l l = List.length l.
Proof.
  induction l as [|a l IH]; [reflexivity|]. cbn. now rewrite String.eqb_refl, IH.
Qed.

Variable home : string.

Lemma DATA_DIR_eq :
  Notebook.DATA_DIR home = (rstrip_char slash home ++ "/.keras/datasets")%string.
Proof.
  unfold Notebook.DATA_DIR. cbn -[rstrip_char].
  now rewrite eqb_append_nonempty.
Qed.

Lemma DATA_FILE_eq :
  Notebook.DATA_FILE home
  = (Notebook.DATA_DIR home ++ String slash Notebook.filename_train)%string.
Proof.
  unfold Notebook.DATA_FILE. cbn [join fold_left]. unfold join2.
  change (starts_with "/" Notebook.filename_train) with false. cbv iota.
  rewrite DATA_DIR_eq, eqb_append_nonempty by discriminate.
  now rewrite ends_with_char_app by discriminate.
Qed.

Lemma dirname_DATA_FILE : dirname (Notebook.DATA_FILE home) = Notebook.DATA_DIR home.
Proof.
  rewrite DATA_FILE_eq. unfold dirname.
  rewrite dir_part_app by reflexivity.
  rewrite DATA_DIR_eq, append_assoc.
  rewrite eqb_append_nonempty by discriminate.
  rewrite all_slashes_app.
  change (all_slashes ("/.keras/datasets" ++ "/")) with false.
  rewrite andb_false_r. cbn [negb andb].
  now rewrite rstrip_char_app by discriminate.
Qed.

Lemma relpath_same p : p <> "" -> relpath cwd p p = Some ".".
Proof.
  intros Hp. unfold relpath. apply String.eqb_neq in Hp. rewrite Hp.
  rewrite commonprefix_length_refl, Nat.sub_diag, skipn_all.
  reflexivity.
Qed.

Lemma PREFIX_dot : Notebook.PREFIX cwd home = Some ".".
Proof.
  unfold Notebook.PREFIX. rewrite dirname_DATA_FILE. apply relpath_same.
  rewrite DATA_DIR_eq. now apply append_nonempty.
Qed.


(** *** The directories under the root *)

Lemma proper_starts b : proper_component b = true -> starts_with "/" b = false.
Proof.
  intros Hb. destruct (proper_component_inv b Hb) as (E0 & _ & _ & Hs).
  destruct b as [|u b]; [reflexivity|]. apply slash_free_cons in Hs.
  destruct Hs as [Hu _]. unfold starts_with. cbn [prefix].
  destruct (ascii_dec "/" u) as [<-|]; [discriminate|reflexivity].
Qed.

Lemma norm_abs_join2_proper a b :
  proper_component b = true ->
  norm_comps (abs_of cwd (join2 a b)) = norm_comps (abs_of cwd a) ++ [b] /\
  initial_slashes (abs_of cwd (join2 a b)) = initial_slashes (abs_of cwd a).
Proof.
  intros Hb. destruct (abs_of_join2 a b (proper_starts b Hb)) as [Hc Hk].
  split; [|exact Hk].
  rewrite norm_comps_ne, Hk, Hc, fold_left_app, <- norm_comps_ne.
  rewrite (ne_comps_proper b Hb). cbn [fold_left].
  now rewrite norm_step_proper.
Qed.

Lemma norm_abs_join2_dot a :
  norm_comps (abs_of cwd (join2 a ".")) = norm_comps (abs_of cwd a) /\
  initial_slashes (abs_of cwd (join2 a ".")) = initial_slashes (abs_of cwd a).
Proof.
  destruct (abs_of_join2 a "." eq_refl) as [Hc Hk].
  split; [|exact Hk].
  rewrite norm_comps_ne, Hk, Hc, fold_left_app, <- norm_comps_ne.
  reflexivity.
Qed.

Lemma join_char_snoc c l b :
  l <> [] -> join_char c (l ++ [b]) = (join_char c l ++ String c b)%string.
Proof.
  induction l as [|a l IH]; intros Hl; [contradiction|].
  destruct l as [|a' l]; [reflexivity|].
  change (join_char c ((a :: a' :: l) ++ [b]))
    with (a ++ String c (join_char c ((a' :: l) ++ [b])))%string.
  rewrite IH by discriminate.
  change (join_char c (a :: a' :: l))
    with (a ++ String c (join_char c (a' :: l)))%string.
  now rewrite append_assoc.
Qed.

Lemma ends_with_join_char l b :
  proper_component b = true ->
  ends_with_char slash (join_char slash (l ++ [b])) = false.
Proof.
  intros Hb. destruct (proper_component_inv b Hb) as (E0 & _ & _ & Hs).
  destruct l as [|a l].
  - cbn. now apply ends_with_slash_free.
  - rewrite join_char_snoc by discriminate.
    rewrite ends_with_char_app by discriminate.
    destruct b as [|u b]; [discriminate|].
    change (ends_with_char slash (String slash (String u b)))
      with (ends_with_char slash (String u b)).
    now apply ends_with_slash_free.
Qed.

Lemma join_char_nonempty l b :
  proper_component b = true -> join_char slash (l ++ [b]) <> "".
Proof.
  intros Hb. destruct (proper_component_inv b Hb) as (E0 & _).
  destruct l as [|a l].
  - cbn. now apply String.eqb_neq.
  - rewrite join_char_snoc by discriminate. now apply append_nonempty.
Qed.

(** Joining a proper component to a normal absolute path. *)
Lemma join2_render k l b x :
  1 <= k -> proper_component b = true -> proper_component x = true ->
  join2 (render k (l ++ [b])) x = render k (l ++ [b; x]) /\
  join2 (render k (l ++ [b])) x = (render k (l ++ [b]) ++ "/" ++ x)%string.
Proof.
  intros Hk Hb Hx.
  assert (E : join2 (render k (l ++ [b])) x = (render k (l ++ [b]) ++ "/" ++ x)%string).
  { unfold join2. rewrite (proper_starts x Hx), (render_abs k _ Hk).
    rewrite ends_with_char_app by (now apply join_char_nonempty).
    rewrite (ends_with_join_char l b Hb).
    destruct k; [lia|reflexivity]. }
  split; [|exact E]. rewrite E, !(render_abs k _ Hk).
  change (l ++ [b; x]) with (l ++ [b] ++ [x]). rewrite app_assoc.
  rewrite (join_char_snoc slash (l ++ [b]) x) by (now destruct l).
  now rewrite append_assoc.
Qed.

Lemma components_render k l :
  1 <= k <= 2 -> forallb proper_component l = true ->
  components cwd (render k l) = l.
Proof.
  intros Hk Hl. unfold components, abspath, abs_of.
  rewrite isabs_render by lia. rewrite normpath_render by assumption.
  apply ne_comps_render; [lia|assumption].
Qed.

Lemma list_prefix_app l m : list_prefix l (l ++ m) = true.
Proof.
  induction l as [|a l IH]; [reflexivity|]. cbn. now rewrite String.eqb_refl.
Qed.

Lemma slash_free_app s t : slash_free s -> slash_free t -> slash_free (s ++ t).
Proof.
  intros Hs Ht. induction s as [|a s IH]; [exact Ht|].
  apply slash_free_cons in Hs. destruct Hs as [Ha Hs].
  cbn [String.append]. apply slash_free_cons. split; [exact Ha|now apply IH].
Qed.

Lemma length_append s t :
  String.length (s ++ t) = String.length s + String.length t.
Proof. induction s as [|a s IH]; cbn; [reflexivity|now rewrite IH]. Qed.

Lemma proper_file_name name ext :
  slash_free name -> slash_free ext ->
  2 <= String.length ext ->
  String.eqb ext ".." = false ->
  proper_component (name ++ ext) = true.
Proof.
  intros Hn He Hlen Hdd. unfold proper_component, nonempty.
  rewrite (slash_free_app name ext Hn He). cbn [negb]. rewrite andb_true_r.
  pose proof (length_append name ext) as Hl.
  assert (E0 : String.eqb (name ++ ext) "" = false).
  { apply String.eqb_neq. intros F. rewrite F in Hl. cbn in Hl. lia. }
  assert (E1 : String.eqb (name ++ ext) "." = false).
  { apply String.eqb_neq. intros F. rewrite F in Hl. cbn in Hl. lia. }
  assert (E2 : String.eqb (name ++ ext) ".." = false).
  { apply String.eqb_neq. intros F. rewrite F in Hl. cbn in Hl.
    destruct name as [|a name]; [|cbn in Hl; lia].
    cbn in F. subst ext. discriminate. }
  now rewrite E0, E1, E2.
Qed.


Variable ROOT_DIR : string.

Lemma MODEL_DIR_eq sub :
  proper_component sub = true ->
  abspath cwd (join ROOT_DIR [sub; "."])
  = render (initial_slashes (abs_of cwd ROOT_DIR)) (norm_comps (abs_of cwd ROOT_DIR) ++ [sub]) /\
  abspath cwd (join ROOT_DIR [sub; "."]) = abspath cwd (join ROOT_DIR [sub]).
Proof.
  intros Hs. cbn [join fold_left].
  rewrite !abspath_render.
  destruct (norm_abs_join2_dot (join2 ROOT_DIR sub)) as [-> ->].
  destruct (norm_abs_join2_proper ROOT_DIR sub Hs) as [-> ->].
  split; reflexivity.
Qed.


End PathFacts.

Lemma string_of_uint_slash_free d : Text.slash_free (NilEmpty.string_of_uint d).
Proof.
  induction d; cbn [NilEmpty.string_of_uint]; try reflexivity;
    apply slash_free_cons; (split; [reflexivity|assumption]).
Qed.

(** The names the notebook formats have no slash, whatever the seed
    and the track length. *)
Lemma format_model_name_slash_free seed len :
  Text.contains "/" (Notebook.format_model_name seed len) = false.
Proof.
  assert (Hint : forall n, Text.slash_free (Notebook.str_int n)).
  { intros n. unfold Notebook.str_int.
    destruct (Z.to_int n) as [d|d]; cbn [NilEmpty.string_of_int].
    - apply string_of_uint_slash_free.
    - apply slash_free_cons. split; [reflexivity|apply string_of_uint_slash_free]. }
  unfold Notebook.format_model_name.
  repeat apply slash_free_app; trivial; reflexivity.
Qed.



(** ** The segmentation application *)

Section SegmentationFacts.
Import Notebook Applications.

Variable V : Type.
Variable model : ndarray V -> nat -> nat -> nat -> nat -> Z.

(** C7.  Whatever the network answers and whatever the resolution of
    the input, the labels [predict] returns have the shape of the
    movie it was given: one label for each of its pixels. *)
Theorem predict_shape (x : ndarray V) (image_mpp : positive) :
  shape (predict model x image_mpp) = shape x.
Proof.
  unfold predict, resize. cbn. now rewrite (shape_dims x).
Qed.

End SegmentationFacts.

(** ** The container build: the image and the build context *)

Section DockerImage.
Import Docker.

Arguments lookup_arg : simpl never.
Arguments lookup_file : simpl never.
Arguments copy_src : simpl never.
Arguments sed_delete : simpl never.

(** The image of a finished build, and when the build finishes. *)
Lemma build_image pull args ctx img :
  build pull args ctx = Some img <->
  exists b new1 new2 reqs new3 new4,
    pull (tag_of args) = Some b /\
    copy_src ctx "/opt/deepcell-tf/" "setup.py" = Some new1 /\
    copy_src ctx "/opt/deepcell-tf/" "requirements.txt" = Some new2 /\
    lookup_file "/opt/deepcell-tf/requirements.txt" (new2 ++ new1) = Some reqs /\
    copy_src ctx "/opt/deepcell-tf/deepcell" "deepcell" = Some new3 /\
    copy_src ctx "/notebooks/" "scripts/" = Some new4 /\
    img = {| img_args :=
               [("TF_VERSION",
                 match lookup_arg "TF_VERSION" args with
                 | Some v => v
                 | None => "1.15.0-gpu"
                 end)];
             img_from := Some (tag_of args);
             img_entrypoint := base_entrypoint b;
             img_cmd := jupyter_command;
             img_workdir := "/notebooks";
             img_dirs := "/notebooks/intro_to_tensorflow" :: "/notebooks"
                         :: "/coral/tflite/python/examples/classification"
                         :: "/coral" :: "/coral" :: base_dirs b;
             img_files := new4 ++ new3
                          ++ ("/opt/deepcell-tf/requirements.txt",
                              sed_delete "tensorflow" reqs) :: new2 ++ new1;
             img_log := build_log reqs |}.
Proof.
  unfold build, Dockerfile, tag_of.
  cbn [exec_instructions exec_instruction img_args scratch expand map concat].
  rewrite lookup_arg_head.
  set (v := match lookup_arg "TF_VERSION" args with Some v => v | None => "1.15.0-gpu" end).
  cbn [String.append].
  split.
  - destruct (pull _) as [b|] eqn:Hpull; [|discriminate].
    cbn.
    destruct (copy_src ctx _ "setup.py") as [new1|] eqn:Hc1; [|discriminate].
    destruct (copy_src ctx _ "requirements.txt") as [new2|] eqn:Hc2; [|discriminate].
    cbn. rewrite app_nil_r.
    destruct (lookup_file _ (new2 ++ new1)) as [reqs|] eqn:Hreq; [|discriminate].
    cbn. rewrite lookup_file_head.
    destruct (copy_src ctx _ "deepcell") as [new3|] eqn:Hc3; [|discriminate].
    cbn.
    destruct (copy_src ctx _ "scripts/") as [new4|] eqn:Hc4; [|discriminate].
    cbn. intros [= <-].
    exists b, new1, new2, reqs, new3, new4. rewrite app_nil_r. repeat split; trivial.
  - intros (b & new1 & new2 & reqs & new3 & new4 & Hpull & Hc1 & Hc2 & Hreq & Hc3 & Hc4 & ->).
    rewrite Hpull. cbn. rewrite Hc1, Hc2. cbn. rewrite app_nil_r, Hreq.
    cbn. rewrite lookup_file_head, Hc3. cbn. rewrite Hc4. cbn. now rewrite app_nil_r.
Qed.




Lemma exec_instructions_app pull args ctx ins1 ins2 st :
  exec_instructions pull args ctx (ins1 ++ ins2) st
  = match exec_instructions pull args ctx ins1 st with
    | Some st' => exec_instructions pull args ctx ins2 st'
    | None => None
    end.
Proof.
  revert st. induction ins1 as [|i ins1 IH]; intros st; [reflexivity|].
  cbn [app exec_instructions].
  destruct (exec_instruction pull args ctx i st); [apply IH|reflexivity].
Qed.

(** X2.  The test of the [if] that guards the last RUN line is true
    whatever the image held before: [WORKDIR /notebooks] has made the
    directory that [find] looks for.  The build is the one of the
    recipe with the guarded commands run unconditionally. *)
Theorem notebooks_guard_always_holds pull args ctx :
  (forall t body st st',
      In (RUN (IfThen t body)) Dockerfile ->
      exec_instruction pull args ctx (WORKDIR "/notebooks") st = Some st' ->
      eval_test t st' = Some true) /\
  exec_instructions pull args ctx (map unguarded Dockerfile) scratch
  = build pull args ctx.
Proof.
  assert (Htest : forall t body st st',
      In (RUN (IfThen t body)) Dockerfile ->
      exec_instruction pull args ctx (WORKDIR "/notebooks") st = Some st' ->
      eval_test t st' = Some true).
  { intros t body st st' Hin Hst. unfold Dockerfile in Hin. cbn [In] in Hin.
    repeat (destruct Hin as [Hin|Hin]; [try discriminate|]); try contradiction.
    injection Hin as <- <-. cbn in Hst. injection Hst as <-. reflexivity. }
  split; [exact Htest|].
  unfold build.
  change Dockerfile with (firstn 18 Dockerfile ++ skipn 18 Dockerfile).
  rewrite map_app, !exec_instructions_app.
  assert (E : map unguarded (firstn 18 Dockerfile) = firstn 18 Dockerfile) by reflexivity.
  rewrite E.
  destruct (exec_instructions pull args ctx (firstn 18 Dockerfile) scratch) as [st|];
    [|reflexivity].
  cbn [skipn Dockerfile map unguarded exec_instructions].
  destruct (exec_instruction pull args ctx (WORKDIR "/notebooks") st) as [st'|] eqn:Hst;
    [|reflexivity].
  cbn [exec_instruction exec_shell].
  erewrite Htest; [reflexivity| |exact Hst].
  unfold Dockerfile. cbn [In]. do 19 right. left. reflexivity.
Qed.



(** X4.  In a finished build every [apt-get install] runs on a
    package index that [apt-get update] has read after the last command
    that removed the lists or added a source; with the updates left out
    this fails, even from a fresh index. *)
Theorem apt_installs_find_fresh_index pull args ctx img :
  build pull args ctx = Some img ->
  apt_index_fresh false (img_log img) = true /\
  apt_index_fresh true
    (filter (fun e => match e with AptUpdate => false | _ => true end) (img_log img))
  = false.
Proof.
  intros H. apply build_image in H.
  destruct H as (b & new1 & new2 & reqs & new3 & new4 & _ & _ & _ & _ & _ & _ & ->).
  split; reflexivity.
Qed.











End DockerImage.


Lemma apt_installs_find_fresh_index_witness :
  Docker.build Docker.demo_pull [] Docker.demo_context = Some Docker.demo_image /\
  Docker.apt_index_fresh false (Docker.img_log Docker.demo_image) = true.
Proof.
  split; [vm_compute; reflexivity|].
  apply (apt_installs_find_fresh_index Docker.demo_pull [] Docker.demo_context).
  vm_compute; reflexivity.
Defined.



(** ** The notebook: padding *)

Section PaddingFacts.
Import Notebook.
Local Open Scope nat_scope.

Variable V : Type.
Variable zero : V.

Lemma ltb_max d m : (d <? Nat.max m d) = (d <? m).
Proof.
  destruct (d <? m) eqn:E.
  - apply Nat.ltb_lt in E. apply Nat.ltb_lt. lia.
  - apply Nat.ltb_ge in E. apply Nat.ltb_ge. lia.
Qed.

Lemma max_when_less d m : (d <? m) = true -> Nat.max m d = m.
Proof. intros E. apply Nat.ltb_lt in E. lia. Qed.

(** A maximum below the size of a movie pads as the size itself does:
    not at all. *)
Lemma pad_movie_max max_frames max_y max_x (raw : ndarray V) (tracked : ndarray Z) :
  pad_movie zero max_frames max_y max_x raw tracked
  = pad_movie zero (Nat.max max_frames (dim0 raw)) (Nat.max max_y (dim1 raw))
              (Nat.max max_x (dim2 raw)) raw tracked.
Proof.
  unfold pad_movie.
  assert (Ey : pad_y zero (Nat.max max_y (dim1 raw)) raw tracked
               = pad_y zero max_y raw tracked).
  { unfold pad_y. rewrite ltb_max.
    destruct (dim1 raw <? max_y) eqn:E; [|reflexivity].
    now rewrite (max_when_less _ _ E). }
  rewrite Ey.
  pose proof (pad_y_dims V zero max_y raw tracked) as Dy. cbv zeta in Dy.
  destruct (pad_y zero max_y raw tracked) as [r1 t1]. cbn [fst] in Dy.
  destruct Dy as (D0 & _ & D2 & _).
  assert (Ex : pad_x zero (Nat.max max_x (dim2 raw)) r1 t1 = pad_x zero max_x r1 t1).
  { unfold pad_x. rewrite <- D2, ltb_max.
    destruct (dim2 r1 <? max_x) eqn:E; [|reflexivity].
    now rewrite (max_when_less _ _ E). }
  rewrite Ex.
  pose proof (pad_x_dims V zero max_x r1 t1) as Dx. cbv zeta in Dx.
  destruct (pad_x zero max_x r1 t1) as [r2 t2]. cbn [fst] in Dx.
  destruct Dx as (D0' & _ & _ & _).
  unfold pad_frames. rewrite <- D0, <- D0', ltb_max.
  destruct (dim0 r2 <? max_frames) eqn:E; [|reflexivity].
  now rewrite (max_when_less _ _ E).
Qed.

Lemma total_pad_width_max max_frames max_y max_x (raw : ndarray V) :
  total_pad_width (Nat.max max_frames (dim0 raw)) (Nat.max max_y (dim1 raw))
                  (Nat.max max_x (dim2 raw)) raw
  = total_pad_width max_frames max_y max_x raw.
Proof.
  unfold total_pad_width.
  replace (Nat.max max_frames (dim0 raw) - dim0 raw) with (max_frames - dim0 raw) by lia.
  replace (Nat.max max_y (dim1 raw) - dim1 raw) with (max_y - dim1 raw) by lia.
  replace (Nat.max max_x (dim2 raw) - dim2 raw) with (max_x - dim2 raw) by lia.
  reflexivity.
Qed.

(** Whatever the maxima, the three steps are one [np.pad]. *)
Lemma pad_movie_is_np_pad max_frames max_y max_x (raw : ndarray V) (tracked : ndarray Z) :
  same_array (fst (pad_movie zero max_frames max_y max_x raw tracked))
             (np_pad zero raw (total_pad_width max_frames max_y max_x raw)) /\
  same_array (snd (pad_movie zero max_frames max_y max_x raw tracked))
             (np_pad 0%Z tracked (total_pad_width max_frames max_y max_x raw)).
Proof.
  rewrite pad_movie_max, <- total_pad_width_max.
  apply pad_movie_np_pad; lia.
Qed.

Lemma within_offset b n j : j < n -> within b n (j + b) = true.
Proof.
  intros H. unfold within. apply andb_true_iff. split.
  - apply Nat.leb_le. lia.
  - apply Nat.ltb_lt. lia.
Qed.

Lemma within_zero n i : within 0 n i = (i <? n).
Proof. unfold within. cbn. reflexivity. Qed.

(** An element of an array inside a padded one. *)
Lemma item_np_pad_offset {A} (z : A) (a : ndarray A) f top bottom left right i j k l :
  i < dim0 a -> j < dim1 a -> k < dim2 a -> l < dim3 a ->
  item (np_pad z a ((0, f), (top, bottom), (left, right), (0, 0))) i (j + top) (k + left) l
  = item a i j k l.
Proof.
  intros Hi Hj Hk Hl. rewrite item_np_pad.
  rewrite (within_offset top _ _ Hj), (within_offset left _ _ Hk), !within_zero.
  apply Nat.ltb_lt in Hi, Hl. rewrite Hi, Hl. cbn [andb].
  now rewrite Nat.add_sub, Nat.add_sub, !Nat.sub_0_r.
Qed.

Lemma same_array_dims {A} (a b : ndarray A) :
  same_array a b ->
  dim0 a = dim0 b /\ dim1 a = dim1 b /\ dim2 a = dim2 b /\ dim3 a = dim3 b.
Proof.
  intros [S _]. unfold dim0, dim1, dim2, dim3. now rewrite S.
Qed.

(** An element of a movie, after the padding. *)
Lemma item_pad_movie_offset {A} (z : A) (a a' : ndarray A) f top bottom left right i j k l :
  same_array a' (np_pad z a ((0, f), (top, bottom), (left, right), (0, 0))) ->
  i < dim0 a -> j < dim1 a -> k < dim2 a -> l < dim3 a ->
  item a' i (j + top) (k + left) l = item a i j k l.
Proof.
  intros Hs Hi Hj Hk Hl.
  destruct (same_array_dims _ _ Hs) as (D0 & D1 & D2 & D3).
  rewrite dim0_np_pad in D0. rewrite dim1_np_pad in D1.
  rewrite dim2_np_pad in D2. rewrite dim3_np_pad in D3.
  destruct Hs as [_ Hs]. rewrite Hs by lia.
  now apply item_np_pad_offset.
Qed.

(** X7.  Whatever the maxima, padding neither crops a movie nor moves
    its content but by the rows and columns put before it: each axis
    ends with the larger of the maximum and the size it had, and every
    pixel of the movie, and every label, is found again at its place
    shifted by the leading pads. *)
Theorem padding_keeps_every_pixel max_frames max_y max_x
    (raw : ndarray V) (tracked : ndarray Z) :
  let raw' := fst (pad_movie zero max_frames max_y max_x raw tracked) in
  let tracked' := snd (pad_movie zero max_frames max_y max_x raw tracked) in
  let top := leading (max_y - dim1 raw) in
  let left := leading (max_x - dim2 raw) in
  shape raw' = (Nat.max max_frames (dim0 raw), Nat.max max_y (dim1 raw),
                Nat.max max_x (dim2 raw), dim3 raw) /\
  (forall i j k l,
      i < dim0 raw -> j < dim1 raw -> k < dim2 raw -> l < dim3 raw ->
      item raw' i (j + top) (k + left) l = item raw i j k l) /\
  (forall i j k l,
      i < dim0 tracked -> j < dim1 tracked -> k < dim2 tracked -> l < dim3 tracked ->
      item tracked' i (j + top) (k + left) l = item tracked i j k l).
Proof.
  intros raw' tracked' top left.
  destruct (pad_movie_is_np_pad max_frames max_y max_x raw tracked) as [Hr Ht].
  fold raw' in Hr. fold tracked' in Ht.
  unfold total_pad_width in Hr, Ht. fold top left in Hr, Ht.
  split; [apply pad_movie_shape|]. split.
  - intros i j k l. now apply (item_pad_movie_offset _ _ _ _ _ _ _ _ _ _ _ _ Hr).
  - intros i j k l. now apply (item_pad_movie_offset _ _ _ _ _ _ _ _ _ _ _ _ Ht).
Qed.


End PaddingFacts.

(** ** The notebook: the maxima *)

Section MaximaFacts.
Import Notebook.
Local Open Scope nat_scope.

Variable V L : Type.

Lemma update_max_some (m0 m1 m2 : nat) (t : trks V L) x0 :
  hd_error (X t) = Some x0 ->
  update_max (m0, m1, m2) t
  = Some (Nat.max m0 (dim0 x0), Nat.max m1 (dim1 x0), Nat.max m2 (dim2 x0)).
Proof.
  unfold update_max. destruct (X t) as [|x xs]; [discriminate|]. intros [= ->].
  assert (E : forall a d, (if a <? d then d else a) = Nat.max a d).
  { intros a d. destruct (a <? d) eqn:E.
    - apply Nat.ltb_lt in E. lia.
    - apply Nat.ltb_ge in E. lia. }
  now rewrite !E.
Qed.

Lemma update_max_none m (t : trks V L) : update_max m t = None <-> X t = [].
Proof.
  unfold update_max. destruct (X t) as [|x xs].
  - tauto.
  - destruct m as [[m0 m1] m2]. split; discriminate.
Qed.

(** The loop of cell 3 stops on an IndexError exactly when a file has
    no movie. *)
Lemma max_loop_none (files : list (trks V L)) m :
  max_loop files m = None <-> Exists (fun t => X t = []) files.
Proof.
  revert m. induction files as [|t files IH]; intros m; cbn [max_loop].
  - split; [discriminate|]. intros H. inversion H.
  - destruct (update_max m t) as [m'|] eqn:E.
    + rewrite IH. split; [now right|]. intros H. inversion H as [? ? H0|]; [|assumption].
      apply update_max_none with (m := m) in H0. congruence.
    + split; [|reflexivity]. intros _. left. now apply (update_max_none m).
Qed.

(** The maxima are no smaller than where the loop starts, and no
    smaller than the first movie of any file. *)
Lemma max_loop_bounds (files : list (trks V L)) m0 m1 m2 a b c :
  max_loop files (m0, m1, m2) = Some (a, b, c) ->
  (m0 <= a /\ m1 <= b /\ m2 <= c) /\
  forall t x0, In t files -> hd_error (X t) = Some x0 ->
               dim0 x0 <= a /\ dim1 x0 <= b /\ dim2 x0 <= c.
Proof.
  revert m0 m1 m2. induction files as [|t files IH]; intros m0 m1 m2; cbn [max_loop].
  - intros [= -> -> ->]. split; [lia|]. intros t x0 [].
  - destruct (hd_error (X t)) as [x0|] eqn:Hx.
    + rewrite (update_max_some _ _ _ _ _ Hx). intros H.
      destruct (IH _ _ _ H) as [Hm Hall]. split; [lia|].
      intros t' x' [<-|Hin] Hx'.
      * rewrite Hx in Hx'. injection Hx' as <-. lia.
      * now apply (Hall t').
    + assert (E : update_max (m0, m1, m2) t = None).
      { apply update_max_none. now destruct (X t). }
      rewrite E. discriminate.
Qed.

(** X8.  The search for the maxima stops on an IndexError exactly
    when one of the files holds no movie.  When it ends, each maximum is
    at least 1 and at least the size of the first movie of every file. *)
Theorem maxima_fail_on_empty_file (files : list (trks V L)) :
  (max_dimensions files = None <-> Exists (fun t => X t = []) files) /\
  (forall a b c,
      max_dimensions files = Some (a, b, c) ->
      1 <= a /\ 1 <= b /\ 1 <= c /\
      forall t x0, In t files -> hd_error (X t) = Some x0 ->
                   dim0 x0 <= a /\ dim1 x0 <= b /\ dim2 x0 <= c).
Proof.
  split; [apply max_loop_none|].
  intros a b c H. destruct (max_loop_bounds _ _ _ _ _ _ _ H) as [(H0 & H1 & H2) Hall].
  repeat split; try assumption; now apply (Hall t x0).
Qed.

Lemma max_loop_swap (t t' : trks V L) m :
  match update_max m t with Some m' => update_max m' t' | None => None end
  = match update_max m t' with Some m' => update_max m' t | None => None end.
Proof.
  destruct m as [[m0 m1] m2].
  destruct (hd_error (X t)) as [x|] eqn:Hx; destruct (hd_error (X t')) as [x'|] eqn:Hx'.
  - rewrite (update_max_some m0 m1 m2 t x Hx), (update_max_some m0 m1 m2 t' x' Hx').
    rewrite (update_max_some _ _ _ t' x' Hx'), (update_max_some _ _ _ t x Hx).
    f_equal. f_equal; [f_equal|]; lia.
  - assert (E : forall m, update_max m t' = None)
      by (intros m; apply update_max_none; now destruct (X t')).
    rewrite !E. now destruct (update_max _ t).
  - assert (E : forall m, update_max m t = None)
      by (intros m; apply update_max_none; now destruct (X t)).
    rewrite !E. now destruct (update_max _ t').
  - assert (E : forall m, update_max m t = None)
      by (intros m; apply update_max_none; now destruct (X t)).
    assert (E' : forall m, update_max m t' = None)
      by (intros m; apply update_max_none; now destruct (X t')).
    now rewrite E, E'.
Qed.

(** X9.  The maxima do not depend on the order in which the files
    are listed. *)
Theorem maxima_ignore_file_order (files files' : list (trks V L)) :
  Permutation files files' -> max_dimensions files = max_dimensions files'.
Proof.
  unfold max_dimensions. generalize (1, 1, 1).
  intros m P. revert m. induction P as [|t l l' P IH|t t' l|l l' l'' P1 IH1 P2 IH2]; intros m.
  - reflexivity.
  - cbn [max_loop]. destruct (update_max m t); [apply IH|reflexivity].
  - assert (E : forall (u u' : trks V L),
               max_loop (u :: u' :: l) m
               = match match update_max m u with
                       | Some m' => update_max m' u'
                       | None => None
                       end with
                 | Some m'' => max_loop l m''
                 | None => None
                 end).
    { intros u u'. cbn [max_loop]. now destruct (update_max m u). }
    now rewrite !E, max_loop_swap.
  - now rewrite IH1.
Qed.

End MaximaFacts.

(** ** The notebook: the combined data set *)

Section CombineFacts.
Import Notebook.
Local Open Scope nat_scope.

Variable V L : Type.
Variable zero : V.
Variable image_norm : nat -> nat -> (nat -> nat -> V) -> nat -> nat -> V.

Lemma within_inv b n i : within b n i = true -> b <= i /\ i - b < n.
Proof.
  unfold within. intros H. apply andb_true_iff in H. destruct H as [H1 H2].
  apply Nat.leb_le in H1. apply Nat.ltb_lt in H2. lia.
Qed.

(** The movie [process_movie] returns is the normalised one, padded;
    the labels are the given ones, padded by the same widths. *)
Lemma process_movie_np_pad max_frames max_y max_x (raw : ndarray V) (tracked : ndarray Z) :
  same_array (fst (process_movie zero image_norm max_frames max_y max_x raw tracked))
             (np_pad zero (normalize image_norm raw)
                     (total_pad_width max_frames max_y max_x raw)) /\
  same_array (snd (process_movie zero image_norm max_frames max_y max_x raw tracked))
             (np_pad 0%Z tracked (total_pad_width max_frames max_y max_x raw)).
Proof.
  unfold process_movie.
  apply (pad_movie_is_np_pad V zero max_frames max_y max_x (normalize image_norm raw) tracked).
Qed.

(** X10.  The labels of a processed movie are those of the movie it
    came from and the background label 0: every label of the result is
    0 or a label of the input, and every label of the input is still in
    the result.  Normalising the raw images does not touch them. *)
Theorem padding_keeps_the_labels max_frames max_y max_x
    (raw : ndarray V) (tracked : ndarray Z) :
  let tracked' := snd (process_movie zero image_norm max_frames max_y max_x raw tracked) in
  (forall i j k l,
      i < dim0 tracked' -> j < dim1 tracked' -> k < dim2 tracked' -> l < dim3 tracked' ->
      item tracked' i j k l = 0%Z \/
      exists i' j' k' l',
        i' < dim0 tracked /\ j' < dim1 tracked /\ k' < dim2 tracked /\ l' < dim3 tracked /\
        item tracked' i j k l = item tracked i' j' k' l') /\
  (forall i j k l,
      i < dim0 tracked -> j < dim1 tracked -> k < dim2 tracked -> l < dim3 tracked ->
      exists i' j' k' l',
        i' < dim0 tracked' /\ j' < dim1 tracked' /\ k' < dim2 tracked' /\ l' < dim3 tracked' /\
        item tracked' i' j' k' l' = item tracked i j k l).
Proof.
  intros tracked'.
  destruct (process_movie_np_pad max_frames max_y max_x raw tracked) as [_ Ht].
  fold tracked' in Ht. unfold total_pad_width in Ht.
  destruct (same_array_dims _ _ Ht) as (D0 & D1 & D2 & D3).
  rewrite dim0_np_pad in D0. rewrite dim1_np_pad in D1.
  rewrite dim2_np_pad in D2. rewrite dim3_np_pad in D3.
  split.
  - intros i j k l Hi Hj Hk Hl. destruct Ht as [_ Ht].
    rewrite (Ht i j k l Hi Hj Hk Hl), item_np_pad.
    destruct (within 0 (dim0 tracked) i) eqn:W0; [|now left].
    destruct (within _ (dim1 tracked) j) eqn:W1; [|now left].
    destruct (within _ (dim2 tracked) k) eqn:W2; [|now left].
    destruct (within 0 (dim3 tracked) l) eqn:W3; [|now left].
    apply within_inv in W0, W1, W2, W3. right.
    eexists _, _, _, _. cbn [andb]. repeat split; [apply W0|apply W1|apply W2|apply W3].
  - intros i j k l Hi Hj Hk Hl.
    exists i, (j + leading (max_y - dim1 raw)), (k + leading (max_x - dim2 raw)), l.
    repeat split; try lia.
    now apply (item_pad_movie_offset _ _ _ _ _ _ _ _ _ _ _ _ Ht).
Qed.

(** X11.  Normalisation comes before padding: inside the window of
    the original movie, channel 0 of the result is [image_norm] of the
    frame as it was loaded, with its own size, and the other channels
    are as loaded; outside the window every value is the pad value
    itself, not a normalised one. *)
Theorem normalisation_precedes_padding max_frames max_y max_x
    (raw : ndarray V) (tracked : ndarray Z) :
  let raw' := fst (process_movie zero image_norm max_frames max_y max_x raw tracked) in
  let top := leading (max_y - dim1 raw) in
  let left := leading (max_x - dim2 raw) in
  (forall i j k,
      i < dim0 raw -> j < dim1 raw -> k < dim2 raw -> 0 < dim3 raw ->
      item raw' i (j + top) (k + left) 0
      = image_norm (dim1 raw) (dim2 raw) (fun j' k' => item raw i j' k' 0) j k) /\
  (forall i j k l,
      i < dim0 raw -> j < dim1 raw -> k < dim2 raw -> l < dim3 raw -> 0 < l ->
      item raw' i (j + top) (k + left) l = item raw i j k l) /\
  (forall i j k l,
      i < dim0 raw' -> j < dim1 raw' -> k < dim2 raw' -> l < dim3 raw' ->
      (i <? dim0 raw) && within top (dim1 raw) j && within left (dim2 raw) k = false ->
      item raw' i j k l = zero).
Proof.
  intros raw' top left.
  destruct (process_movie_np_pad max_frames max_y max_x raw tracked) as [Hr _].
  fold raw' in Hr. unfold total_pad_width in Hr. fold top left in Hr.
  split; [|split].
  - intros i j k Hi Hj Hk Hl.
    rewrite (item_pad_movie_offset _ _ _ _ _ _ _ _ _ _ _ _ Hr) by assumption.
    cbn [normalize item]. apply Nat.ltb_lt in Hi. now rewrite Hi.
  - intros i j k l Hi Hj Hk Hl Hpos.
    rewrite (item_pad_movie_offset _ _ _ _ _ _ _ _ _ _ _ _ Hr) by assumption.
    cbn [normalize item]. replace (l =? 0) with false by (symmetry; apply Nat.eqb_neq; lia).
    now rewrite andb_false_r.
  - intros i j k l Hi Hj Hk Hl Hout.
    destruct (same_array_dims _ _ Hr) as (_ & _ & _ & D3).
    rewrite dim3_np_pad in D3.
    destruct Hr as [_ Hr]. rewrite (Hr i j k l Hi Hj Hk Hl).
    rewrite item_padded by (rewrite D3 in Hl; cbn in Hl |- *; lia).
    change (dim0 (normalize image_norm raw)) with (dim0 raw).
    change (dim1 (normalize image_norm raw)) with (dim1 raw).
    change (dim2 (normalize image_norm raw)) with (dim2 raw).
    now rewrite Hout.
Qed.


(** The movies of a list of files, file after file, as the inner loop
    of cell 4 meets them. *)
Lemma combine_files_movies max_frames max_y max_x (files : list (trks V L)) :
  let c := combine_files zero image_norm max_frames max_y max_x files in
  let movies := flat_map (fun t => zip3 (lineages t) (X t) (y t)) files in
  lineages c = map (fun m => fst (fst m)) movies /\
  X c = map (fun m => fst (process_movie zero image_norm max_frames max_y max_x
                                         (snd (fst m)) (snd m))) movies /\
  y c = map (fun m => snd (process_movie zero image_norm max_frames max_y max_x
                                         (snd (fst m)) (snd m))) movies.
Proof.
  cbv zeta. unfold combine_files.
  set (step := fun (acc : trks V L) (m : L * ndarray V * ndarray Z) =>
                 let '(lineage, raw, tracked) := m in
                 let '(raw0, tracked0) :=
                   process_movie zero image_norm max_frames max_y max_x raw tracked in
                 {| lineages := lineages acc ++ [lineage];
                    X := X acc ++ [raw0];
                    y := y acc ++ [tracked0] |}).
  set (fX := fun m : L * ndarray V * ndarray Z =>
               fst (process_movie zero image_norm max_frames max_y max_x
                                  (snd (fst m)) (snd m))).
  set (fy := fun m : L * ndarray V * ndarray Z =>
               snd (process_movie zero image_norm max_frames max_y max_x
                                  (snd (fst m)) (snd m))).
  assert (Inner : forall ms acc,
             let r := fold_left step ms acc in
             lineages r = lineages acc ++ map (fun m => fst (fst m)) ms /\
             X r = X acc ++ map fX ms /\ y r = y acc ++ map fy ms).
  { induction ms as [|[[l r] t] ms IH]; intros acc; cbv zeta.
    - cbn. now rewrite !app_nil_r.
    - assert (S1 : lineages (step acc (l, r, t)) = lineages acc ++ [l]
                   /\ X (step acc (l, r, t)) = X acc ++ [fX (l, r, t)]
                   /\ y (step acc (l, r, t)) = y acc ++ [fy (l, r, t)]).
      { unfold step, fX, fy. cbn [fst snd].
        destruct (process_movie zero image_norm max_frames max_y max_x r t) as [r0 t0].
        repeat split. }
      destruct S1 as (S1 & S2 & S3).
      cbn [fold_left map]. destruct (IH (step acc (l, r, t))) as (E1 & E2 & E3).
      rewrite E1, E2, E3, S1, S2, S3. now rewrite <- !app_assoc. }
  assert (Outer : forall fs acc,
             let r := fold_left (fun acc t => fold_left step
                                    (zip3 (lineages t) (X t) (y t)) acc) fs acc in
             let ms := flat_map (fun t => zip3 (lineages t) (X t) (y t)) fs in
             lineages r = lineages acc ++ map (fun m => fst (fst m)) ms /\
             X r = X acc ++ map fX ms /\ y r = y acc ++ map fy ms).
  { induction fs as [|t fs IH]; intros acc; cbv zeta.
    - cbn. now rewrite !app_nil_r.
    - cbn [fold_left flat_map]. destruct (IH (fold_left step (zip3 (lineages t) (X t) (y t)) acc))
        as (E1 & E2 & E3).
      rewrite E1, E2, E3.
      destruct (Inner (zip3 (lineages t) (X t) (y t)) acc) as (I1 & I2 & I3).
      rewrite I1, I2, I3, !map_app. now rewrite <- !app_assoc. }
  apply (Outer files {| lineages := []; X := []; y := [] |}).
Qed.

Lemma length_zip3 (ls : list L) (xs : list (ndarray V)) (ys : list (ndarray Z)) :
  List.length (zip3 ls xs ys)
  = Nat.min (List.length ls) (Nat.min (List.length xs) (List.length ys)).
Proof.
  revert xs ys. induction ls as [|l ls IH]; intros [|x xs] [|yy ys]; cbn; try reflexivity.
  now rewrite IH.
Qed.

Lemma zip3_same_length (ls : list L) (xs : list (ndarray V)) (ys : list (ndarray Z)) :
  List.length xs = List.length ls -> List.length ys = List.length ls ->
  map (fun m => fst (fst m)) (zip3 ls xs ys) = ls /\
  map (fun m => snd (fst m)) (zip3 ls xs ys) = xs /\
  map (fun m => snd m) (zip3 ls xs ys) = ys.
Proof.
  revert xs ys. induction ls as [|l ls IH]; intros [|x xs] [|yy ys]; cbn; try discriminate.
  - now intros.
  - intros [= Hx] [= Hy]. destruct (IH xs ys Hx Hy) as (E1 & E2 & E3).
    now rewrite E1, E2, E3.
Qed.

(** X12.  The combined data set holds the movies of the files in the
    order of the files and, within a file, in the order of the movies:
    the lineage, the images and the labels at one place of the three
    lists come from one movie.  A file whose three sequences differ in
    length gives as many movies as the shortest of them has; when no
    file is so, no lineage is lost. *)
Theorem combined_movies_stay_together max_frames max_y max_x (files : list (trks V L)) :
  let c := combine_files zero image_norm max_frames max_y max_x files in
  let movies := flat_map (fun t => zip3 (lineages t) (X t) (y t)) files in
  lineages c = map (fun m => fst (fst m)) movies /\
  X c = map (fun m => fst (process_movie zero image_norm max_frames max_y max_x
                                         (snd (fst m)) (snd m))) movies /\
  y c = map (fun m => snd (process_movie zero image_norm max_frames max_y max_x
                                         (snd (fst m)) (snd m))) movies /\
  List.length (X c) = List.length (lineages c) /\
  List.length (y c) = List.length (lineages c) /\
  List.length (lineages c)
  = list_sum (map (fun t => Nat.min (List.length (lineages t))
                                    (Nat.min (List.length (X t)) (List.length (y t))))
                  files) /\
  ((forall t, In t files -> List.length (X t) = List.length (lineages t)
                            /\ List.length (y t) = List.length (lineages t)) ->
   lineages c = flat_map (fun t => lineages t) files).
Proof.
  intros c movies.
  destruct (combine_files_movies max_frames max_y max_x files) as (E1 & E2 & E3).
  fold c movies in E1, E2, E3.
  split; [exact E1|]. split; [exact E2|]. split; [exact E3|].
  rewrite E1, E2, E3, !length_map.
  split; [reflexivity|]. split; [reflexivity|]. split.
  - subst movies. clear. induction files as [|t files IH]; [reflexivity|].
    cbn [flat_map map list_sum]. now rewrite length_app, length_zip3, IH.
  - intros Hwf. subst movies. clear E1 E2 E3 c.
    induction files as [|t files IH]; [reflexivity|].
    cbn [flat_map]. rewrite map_app, IH by (intros t' Ht'; apply Hwf; now right).
    destruct (Hwf t (or_introl eq_refl)) as [Hx Hy].
    now destruct (zip3_same_length (lineages t) (X t) (y t) Hx Hy) as (-> & _ & _).
Qed.


(** X13.  When cell 3 finds maxima and, in every file, every movie
    has the size of the first one, all movies of the combined data set
    have the frames, rows and columns of the maxima; so have the label
    arrays when each has the shape of its movie. *)
Theorem uniform_files_give_uniform_dataset max_frames max_y max_x (files : list (trks V L)) :
  max_dimensions files = Some (max_frames, max_y, max_x) ->
  (forall t x0 x, In t files -> hd_error (X t) = Some x0 -> In x (X t) ->
                  dim0 x = dim0 x0 /\ dim1 x = dim1 x0 /\ dim2 x = dim2 x0) ->
  let c := combine_files zero image_norm max_frames max_y max_x files in
  Forall (fun x' => dim0 x' = max_frames /\ dim1 x' = max_y /\ dim2 x' = max_x) (X c) /\
  ((forall t lineage raw tracked,
       In t files -> In (lineage, raw, tracked) (zip3 (lineages t) (X t) (y t)) ->
       shape tracked = shape raw) ->
   Forall (fun y' => dim0 y' = max_frames /\ dim1 y' = max_y /\ dim2 y' = max_x) (y c)).
Proof.
  intros Hmax Huni c.
  destruct (max_loop_bounds V L _ _ _ _ _ _ _ Hmax) as [_ Hb].
  destruct (combine_files_movies max_frames max_y max_x files) as (_ & E2 & E3).
  fold c in E2, E3.
  assert (Hfit : forall t lineage raw tracked,
             In t files -> In (lineage, raw, tracked) (zip3 (lineages t) (X t) (y t)) ->
             dim0 raw <= max_frames /\ dim1 raw <= max_y /\ dim2 raw <= max_x).
  { intros t lineage raw tracked Ht Hm.
    assert (Hraw : In raw (X t)).
    { clear - Hm. revert Hm. generalize (lineages t), (X t), (y t).
      induction l as [|l0 l IH]; intros [|x xs] [|y0 ys]; cbn; try tauto.
      intros [[= _ <- _]|H]; [now left|right; now apply (IH xs ys)]. }
    destruct (hd_error (X t)) as [x0|] eqn:Hx; [|now destruct (X t)].
    destruct (Huni t x0 raw Ht Hx Hraw) as (-> & -> & ->). now apply (Hb t). }
  split.
  - rewrite E2. apply Forall_forall. intros x' Hx'.
    apply in_map_iff in Hx'. destruct Hx' as ([[lineage raw] tracked] & <- & Hm).
    apply in_flat_map in Hm. destruct Hm as (t & Ht & Hm). cbn [fst snd].
    destruct (Hfit t lineage raw tracked Ht Hm) as (F0 & F1 & F2).
    unfold process_movie.
    pose proof (pad_movie_shape V zero max_frames max_y max_x
                  (normalize image_norm raw) tracked) as S.
    apply dims_of_shape in S. destruct S as (-> & -> & -> & _).
    change (dim0 (normalize image_norm raw)) with (dim0 raw).
    change (dim1 (normalize image_norm raw)) with (dim1 raw).
    change (dim2 (normalize image_norm raw)) with (dim2 raw). lia.
  - intros Hsame. rewrite E3. apply Forall_forall. intros y' Hy'.
    apply in_map_iff in Hy'. destruct Hy' as ([[lineage raw] tracked] & <- & Hm).
    apply in_flat_map in Hm. destruct Hm as (t & Ht & Hm). cbn [fst snd].
    destruct (Hfit t lineage raw tracked Ht Hm) as (F0 & F1 & F2).
    specialize (Hsame t lineage raw tracked Ht Hm).
    destruct (process_movie_np_pad max_frames max_y max_x raw tracked) as [_ Hpad].
    destruct (same_array_dims _ _ Hpad) as (D0 & D1 & D2 & _).
    unfold total_pad_width in D0, D1, D2.
    rewrite dim0_np_pad in D0. rewrite dim1_np_pad in D1. rewrite dim2_np_pad in D2.
    rewrite (shape_dims tracked), (shape_dims raw) in Hsame.
    injection Hsame as S0 S1 S2 _.
    rewrite D0, D1, D2, S0, S1, S2. unfold leading, trailing.
    pose proof (half_split (max_y - dim1 raw)).
    pose proof (half_split (max_x - dim2 raw)). lia.
Qed.

End CombineFacts.

(** ** The notebook: the training portion *)

Section SplitFacts.
Import Notebook.
Local Open Scope nat_scope.

Variable V L : Type.
Variable sample : nat -> nat -> list nat.

(** What the loop over [idx_train] appends, and when it stops on an
    IndexError. *)
Lemma select_some (t : trks V L) idx acc :
  Forall (fun i => i < List.length (lineages t) /\ i < List.length (X t)
                   /\ i < List.length (y t)) idx ->
  exists r, select t idx acc = Some r /\
            map Some (lineages r) = map Some (lineages acc) ++ map (nth_error (lineages t)) idx /\
            map Some (X r) = map Some (X acc) ++ map (nth_error (X t)) idx /\
            map Some (y r) = map Some (y acc) ++ map (nth_error (y t)) idx.
Proof.
  revert acc. induction idx as [|i idx IH]; intros acc Hall.
  - exists acc. cbn. now rewrite !app_nil_r.
  - inversion Hall as [|? ? (Hl & Hx & Hy) Hrest]; subst.
    cbn [select].
    destruct (nth_error (lineages t) i) as [l|] eqn:El;
      [|apply nth_error_None in El; lia].
    destruct (nth_error (X t) i) as [x|] eqn:Ex;
      [|apply nth_error_None in Ex; lia].
    destruct (nth_error (y t) i) as [yy|] eqn:Ey;
      [|apply nth_error_None in Ey; lia].
    destruct (IH {| lineages := lineages acc ++ [l]; X := X acc ++ [x];
                    y := y acc ++ [yy] |} Hrest) as (r & Hr & E1 & E2 & E3).
    exists r. split; [exact Hr|]. cbn [lineages X y] in E1, E2, E3.
    rewrite E1, E2, E3, !map_app. cbn [map]. rewrite El, Ex, Ey.
    now rewrite <- !app_assoc.
Qed.

Lemma select_none (t : trks V L) idx acc :
  select t idx acc = None <->
  Exists (fun i => List.length (lineages t) <= i \/ List.length (X t) <= i
                   \/ List.length (y t) <= i) idx.
Proof.
  revert acc. induction idx as [|i idx IH]; intros acc; cbn [select].
  - split; [discriminate|]. intros H. inversion H.
  - destruct (nth_error (lineages t) i) as [l|] eqn:El.
    2:{ split; [|reflexivity]. intros _. left. left. now apply nth_error_None. }
    destruct (nth_error (X t) i) as [x|] eqn:Ex.
    2:{ split; [|reflexivity]. intros _. left. right. left. now apply nth_error_None. }
    destruct (nth_error (y t) i) as [yy|] eqn:Ey.
    2:{ split; [|reflexivity]. intros _. left. right. right. now apply nth_error_None. }
    rewrite IH. split; [now right|].
    intros H. inversion H as [? ? H0|]; [|assumption].
    assert (nth_error (lineages t) i <> None) by congruence.
    assert (nth_error (X t) i <> None) by congruence.
    assert (nth_error (y t) i <> None) by congruence.
    rewrite nth_error_Some in *. lia.
Qed.

Lemma train_data_range_floor n :
  10 * train_data_range n <= 9 * n < 10 * (train_data_range n + 1).
Proof.
  unfold train_data_range.
  pose proof (Nat.div_mod_eq (n * 9) 10).
  pose proof (Nat.mod_upper_bound (n * 9) 10). lia.
Qed.

(** X14.  For a data set with as many lineages and label arrays as
    movies, and a sample of [train_data_range] places of it: the
    training portion is made, it holds nine tenths of the movies rounded
    down (so fewer than all when there is any), the entries at one place
    of its three lists are those of one sampled place of the data set,
    and when the sample has no repeats two places of the portion hold
    two different places of the data set. *)
Theorem training_portion_is_nine_tenths (t : trks V L) :
  let n := List.length (X t) in
  let idx_train := sample n (train_data_range n) in
  List.length (lineages t) = n -> List.length (y t) = n ->
  List.length idx_train = train_data_range n ->
  Forall (fun i => i < n) idx_train ->
  exists r,
    training_portion sample t = Some r /\
    map Some (lineages r) = map (nth_error (lineages t)) idx_train /\
    map Some (X r) = map (nth_error (X t)) idx_train /\
    map Some (y r) = map (nth_error (y t)) idx_train /\
    List.length (X r) = train_data_range n /\
    10 * List.length (X r) <= 9 * n < 10 * (List.length (X r) + 1) /\
    (1 <= n -> List.length (X r) < n) /\
    (NoDup idx_train ->
     forall p q, p < q -> q < List.length (X r) ->
                 exists i j, i <> j /\ i < n /\ j < n /\
                             nth_error (X r) p = nth_error (X t) i /\
                             nth_error (X r) q = nth_error (X t) j).
Proof.
  intros n idx_train Hl Hy Hlen Hrange.
  destruct (select_some t idx_train {| lineages := []; X := []; y := [] |})
    as (r & Hr & E1 & E2 & E3).
  { eapply Forall_impl; [|exact Hrange]. cbv beta. intros i Hi.
    rewrite Hl, Hy. fold n. lia. }
  cbn [lineages X y map app] in E1, E2, E3.
  assert (Hlr : List.length (X r) = train_data_range n).
  { rewrite <- Hlen, <- (length_map Some (X r)), E2. apply length_map. }
  exists r. split; [exact Hr|]. split; [exact E1|]. split; [exact E2|]. split; [exact E3|].
  split; [exact Hlr|]. rewrite Hlr.
  pose proof (train_data_range_floor n) as Hf.
  split; [exact Hf|]. split; [lia|].
  intros Hnd p q Hpq Hq.
  assert (K : forall p, p < List.length (X r) ->
              exists i, nth_error idx_train p = Some i /\ i < n /\
                        nth_error (X r) p = nth_error (X t) i).
  { intros p' Hp'.
    destruct (nth_error idx_train p') as [i|] eqn:Ei;
      [|apply nth_error_None in Ei; lia].
    exists i. split; [reflexivity|]. split.
    - rewrite Forall_forall in Hrange. apply Hrange. eapply nth_error_In. exact Ei.
    - pose proof (f_equal (fun l => nth_error l p') E2) as Hm. cbv beta in Hm.
      rewrite !nth_error_map, Ei in Hm. cbn [option_map] in Hm.
      destruct (nth_error (X r) p') as [x|] eqn:Ex; [|apply nth_error_None in Ex; lia].
      cbn [option_map] in Hm. now injection Hm. }
  destruct (K p) as (i & Hi & Hin & Hxi); [lia|].
  destruct (K q) as (j & Hj & Hjn & Hxj); [lia|].
  exists i, j. repeat split; trivial.
  intros ->. rewrite NoDup_nth_error in Hnd.
  assert (p = q); [|lia].
  apply Hnd; [apply nth_error_Some; congruence|congruence].
Qed.

(** X15.  Making the training portion stops on an IndexError exactly
    when a sampled place lies past the end of the lineages, of the
    movies or of the label arrays. *)
Theorem training_portion_index_error (t : trks V L) :
  training_portion sample t = None <->
  Exists (fun i => List.length (lineages t) <= i \/ List.length (X t) <= i
                   \/ List.length (y t) <= i)
         (sample (List.length (X t)) (train_data_range (List.length (X t)))).
Proof. unfold training_portion. apply select_none. Qed.

End SplitFacts.

Lemma uniform_files_give_uniform_dataset_witness :
  Notebook.max_dimensions [Notebook.demo_uniform; Notebook.demo_wide_file]
  = Some (1, 2, 4)%nat /\
  Forall (fun x' => Notebook.dim0 x' = 1 /\ Notebook.dim1 x' = 2 /\ Notebook.dim2 x' = 4)%nat
         (Notebook.X (Notebook.combine_files 0%Z (fun _ _ frame => frame) 1 2 4
                        [Notebook.demo_uniform; Notebook.demo_wide_file])).
Proof.
  split; [reflexivity|].
  apply (uniform_files_give_uniform_dataset Z unit 0%Z (fun _ _ frame => frame) 1 2 4
           [Notebook.demo_uniform; Notebook.demo_wide_file]).
  - reflexivity.
  - intros t x0 x [<-|[<-|[]]] [= <-] Hx; simpl in Hx.
    + destruct Hx as [<-|[<-|[]]]; repeat split.
    + destruct Hx as [<-|[]]; repeat split.
Defined.

Lemma maxima_ignore_file_order_witness :
  Permutation [Notebook.demo_trks; Notebook.demo_wide_file]
              [Notebook.demo_wide_file; Notebook.demo_trks] /\
  Notebook.max_dimensions [Notebook.demo_trks; Notebook.demo_wide_file]
  = Notebook.max_dimensions [Notebook.demo_wide_file; Notebook.demo_trks].
Proof.
  split; [apply perm_swap|].
  apply (maxima_ignore_file_order Z unit
           [Notebook.demo_trks; Notebook.demo_wide_file]
           [Notebook.demo_wide_file; Notebook.demo_trks]).
  apply perm_swap.
Defined.

Lemma training_portion_is_nine_tenths_witness :
  Notebook.train_data_range 803 = 722%nat /\
  Notebook.demo_sample 2 (Notebook.train_data_range 2) = [1%nat] /\
  exists r,
    Notebook.training_portion Notebook.demo_sample Notebook.demo_uniform = Some r /\
    List.length (Notebook.X r) = 1%nat.
Proof.
  split; [reflexivity|]. split; [reflexivity|].
  destruct (training_portion_is_nine_tenths Z unit Notebook.demo_sample Notebook.demo_uniform)
    as (r & Hr & _ & _ & _ & Hlen & _).
  - reflexivity.
  - reflexivity.
  - reflexivity.
  - repeat constructor.
  - exists r. split; [exact Hr|exact Hlen].
Defined.

(** ** The notebook: the files of a model *)

Section ModelFiles.
Import Text PosixPath.

Lemma rstrip_char_snoc c s : rstrip_char c (s ++ String c "") = rstrip_char c s.
Proof.
  induction s as [|a s IH]; cbn [String.append rstrip_char].
  - now rewrite Ascii.eqb_refl.
  - now rewrite IH.
Qed.

Lemma rstrip_char_id c s : ends_with_char c s = false -> rstrip_char c s = s.
Proof.
  induction s as [|a s IH]; [reflexivity|].
  destruct s as [|b s].
  - cbn. now intros ->.
  - intros H. change (ends_with_char c (String a (String b s)))
      with (ends_with_char c (String b s)) in H.
    change (rstrip_char c (String a (String b s)))
      with (match rstrip_char c (String b s) with
            | EmptyString => if Ascii.eqb a c then EmptyString else String a EmptyString
            | r => String a r
            end).
    now rewrite (IH H).
Qed.

Lemma append_inj_l (a s t : string) : (a ++ s = a ++ t)%string -> s = t.
Proof.
  induction a as [|c a IH]; [trivial|]. cbn [String.append]. intros [= H]. now apply IH.
Qed.

Lemma append_inj_r (s t e : string) : (s ++ e = t ++ e)%string -> s = t.
Proof.
  revert t. induction s as [|c s IH]; intros [|d t] H; cbn [String.append] in H.
  - reflexivity.
  - exfalso. apply (f_equal String.length) in H. cbn [String.length] in H.
    rewrite length_append in H. lia.
  - exfalso. apply (f_equal String.length) in H. cbn [String.length] in H.
    rewrite length_append in H. lia.
  - injection H as -> H. f_equal. now apply IH.
Qed.

(** A file directly inside a directory in normal form: its directory
    part and its last component. *)
Lemma file_in_directory k l b f :
  1 <= k -> proper_component b = true -> slash_free f ->
  let d := render k (l ++ [b]) in
  dirname (d ++ "/" ++ f) = d /\ basename (d ++ "/" ++ f) = f.
Proof.
  intros Hk Hb Hf d.
  assert (Hd : d = (slashes k ++ join_char slash (l ++ [b]))%string)
    by apply (render_abs k _ Hk).
  assert (Hne : join_char slash (l ++ [b]) <> "") by now apply join_char_nonempty.
  assert (Hend : ends_with_char slash d = false).
  { rewrite Hd, ends_with_char_app by exact Hne. now apply ends_with_join_char. }
  assert (Hall : all_slashes d = false).
  { rewrite Hd, all_slashes_app. apply andb_false_iff. right.
    destruct (proper_component_inv b Hb) as (E0 & _ & _ & Hs).
    destruct l as [|a l].
    - cbn [app join_char]. destruct b as [|u b]; [discriminate|].
      apply slash_free_cons in Hs. destruct Hs as [Hu _].
      unfold all_slashes. cbn [list_ascii_of_string forallb].
      rewrite Ascii.eqb_sym. unfold slash in *. now rewrite Hu.
    - rewrite join_char_snoc by discriminate. rewrite all_slashes_app.
      apply andb_false_iff. right.
      destruct b as [|u b]; [discriminate|].
      apply slash_free_cons in Hs. destruct Hs as [Hu _].
      unfold all_slashes. cbn [list_ascii_of_string forallb].
      rewrite Ascii.eqb_refl. cbn [andb].
      rewrite Ascii.eqb_sym. unfold slash in *. now rewrite Hu. }
  change (d ++ "/" ++ f)%string with (d ++ String slash f)%string.
  split.
  - unfold dirname. rewrite (dir_part_app d f Hf).
    rewrite eqb_append_nonempty by discriminate.
    rewrite all_slashes_app, Hall. cbn [negb andb].
    change (d ++ "/")%string with (d ++ String slash "")%string.
    rewrite rstrip_char_snoc. now apply rstrip_char_id.
  - unfold basename. rewrite split_char_app, (split_char_slash_free f Hf).
    apply last_last.
Qed.

Variable cwd : string.
Hypothesis cwd_abs : isabs cwd = true.
Variable home ROOT_DIR : string.

(** The two directories of cell 8, by their components. *)
Lemma model_and_log_directories :
  let k := initial_slashes (abs_of cwd ROOT_DIR) in
  let C := norm_comps (abs_of cwd ROOT_DIR) in
  1 <= k <= 2 /\ forallb proper_component C = true /\
  components cwd ROOT_DIR = C /\
  Notebook.MODEL_DIR cwd home ROOT_DIR = Some (render k (C ++ ["models"])) /\
  Notebook.LOG_DIR cwd home ROOT_DIR = Some (render k (C ++ ["logs"])).
Proof.
  intros k C.
  assert (Hk : 1 <= k <= 2) by (apply initial_slashes_abs, isabs_abs_of; exact cwd_abs).
  assert (HC : forallb proper_component C = true)
    by (apply norm_comps_proper, isabs_abs_of; exact cwd_abs).
  destruct (MODEL_DIR_eq cwd cwd_abs ROOT_DIR "models" eq_refl) as [Hm _].
  destruct (MODEL_DIR_eq cwd cwd_abs ROOT_DIR "logs" eq_refl) as [Hl _].
  fold k C in Hm, Hl.
  repeat split; try lia; try exact HC.
  - now apply components_abs.
  - unfold Notebook.MODEL_DIR. rewrite PREFIX_dot. cbn [option_map]. now rewrite Hm.
  - unfold Notebook.LOG_DIR. rewrite PREFIX_dot. cbn [option_map]. now rewrite Hl.
Qed.

(** A file of the model directory, named without a slash. *)
Lemma model_file_path name ext :
  slash_free name -> slash_free ext -> 2 <= String.length ext ->
  String.eqb ext ".." = false ->
  exists model_dir,
    Notebook.MODEL_DIR cwd home ROOT_DIR = Some model_dir /\
    join model_dir [(name ++ ext)%string] = (model_dir ++ "/" ++ name ++ ext)%string /\
    dirname (model_dir ++ "/" ++ name ++ ext) = model_dir /\
    basename (model_dir ++ "/" ++ name ++ ext) = (name ++ ext)%string /\
    descendant cwd (model_dir ++ "/" ++ name ++ ext) ROOT_DIR = true.
Proof.
  intros Hname Hext Hlen Hdd.
  destruct model_and_log_directories as (Hk & HC & Hroot & Hm & _).
  set (k := initial_slashes (abs_of cwd ROOT_DIR)) in *.
  set (C := norm_comps (abs_of cwd ROOT_DIR)) in *.
  assert (Hp : proper_component (name ++ ext) = true) by now apply proper_file_name.
  destruct (join2_render k C "models" (name ++ ext)) as [Hw Hw']; trivial; try lia.
  destruct (file_in_directory k C "models" (name ++ ext)) as [Hd Hb]; trivial; try lia.
  { now destruct (proper_component_inv _ Hp) as (_ & _ & _ & ?). }
  exists (render k (C ++ ["models"])). cbn [join fold_left].
  repeat split; trivial.
  unfold descendant. rewrite Hroot, <- Hw', Hw.
  rewrite components_render; trivial.
  - apply list_prefix_app.
  - rewrite forallb_app, HC. cbn [forallb andb]. rewrite Hp. reflexivity.
Qed.

(** X16.  For every seed and every track length the weights file and
    the loss history are two files of MODEL_DIR itself, named after the
    model with the extensions .h5 and .npz, and both lie under
    ROOT_DIR. *)
Theorem model_files_are_siblings (seed len : Z) :
  let name := Notebook.format_model_name seed len in
  exists model_dir,
    Notebook.MODEL_DIR cwd home ROOT_DIR = Some model_dir /\
    Notebook.model_path cwd home ROOT_DIR name
    = Some (model_dir ++ "/" ++ name ++ ".h5")%string /\
    Notebook.loss_path cwd home ROOT_DIR name
    = Some (model_dir ++ "/" ++ name ++ ".npz")%string /\
    dirname (model_dir ++ "/" ++ name ++ ".h5") = model_dir /\
    dirname (model_dir ++ "/" ++ name ++ ".npz") = model_dir /\
    basename (model_dir ++ "/" ++ name ++ ".h5") = (name ++ ".h5")%string /\
    basename (model_dir ++ "/" ++ name ++ ".npz") = (name ++ ".npz")%string /\
    descendant cwd (model_dir ++ "/" ++ name ++ ".h5") ROOT_DIR = true /\
    descendant cwd (model_dir ++ "/" ++ name ++ ".npz") ROOT_DIR = true.
Proof.
  intros name.
  assert (Hname : slash_free name) by apply format_model_name_slash_free.
  destruct (model_file_path name ".h5" Hname eq_refl) as (d & Hd & J1 & D1 & B1 & U1);
    [cbn; lia|reflexivity|].
  destruct (model_file_path name ".npz" Hname eq_refl) as (d' & Hd' & J2 & D2 & B2 & U2);
    [cbn; lia|reflexivity|].
  rewrite Hd in Hd'. injection Hd' as <-.
  exists d. split; [exact Hd|].
  unfold Notebook.model_path, Notebook.loss_path. rewrite Hd.
  cbn [option_map]. rewrite J1, J2.
  repeat split; assumption.
Qed.

Lemma list_prefix_app_l l a b : list_prefix (l ++ a) (l ++ b) = list_prefix a b.
Proof.
  induction l as [|x l IH]; [reflexivity|]. cbn. now rewrite String.eqb_refl.
Qed.

(** X17.  MODEL_DIR and LOG_DIR are two different directories,
    neither inside the other, and the weights file of a model named
    without a slash lies in the first and not in the second. *)
Theorem models_and_logs_are_apart (model_name : string) :
  slash_free model_name ->
  exists model_dir log_dir weights,
    Notebook.MODEL_DIR cwd home ROOT_DIR = Some model_dir /\
    Notebook.LOG_DIR cwd home ROOT_DIR = Some log_dir /\
    Notebook.model_path cwd home ROOT_DIR model_name = Some weights /\
    model_dir <> log_dir /\
    descendant cwd model_dir log_dir = false /\
    descendant cwd log_dir model_dir = false /\
    descendant cwd weights log_dir = false /\
    descendant cwd weights model_dir = true.
Proof.
  intros Hname.
  destruct model_and_log_directories as (Hk & HC & Hroot & Hm & Hl).
  set (k := initial_slashes (abs_of cwd ROOT_DIR)) in *.
  set (C := norm_comps (abs_of cwd ROOT_DIR)) in *.
  assert (Hfile : proper_component (model_name ++ ".h5") = true)
    by (apply proper_file_name; [exact Hname|reflexivity|cbn; lia|reflexivity]).
  destruct (join2_render k C "models" (model_name ++ ".h5")) as [Hw _]; trivial; try lia.
  assert (Cm : components cwd (render k (C ++ ["models"])) = C ++ ["models"]).
  { apply components_render; trivial. rewrite forallb_app, HC. reflexivity. }
  assert (Cl : components cwd (render k (C ++ ["logs"])) = C ++ ["logs"]).
  { apply components_render; trivial. rewrite forallb_app, HC. reflexivity. }
  assert (Cw : components cwd (render k (C ++ ["models"; (model_name ++ ".h5")%string]))
               = C ++ ["models"; (model_name ++ ".h5")%string]).
  { apply components_render; trivial.
    rewrite forallb_app, HC. cbn [forallb andb]. rewrite Hfile. reflexivity. }
  exists (render k (C ++ ["models"])), (render k (C ++ ["logs"])),
         (render k (C ++ ["models"; (model_name ++ ".h5")%string])).
  split; [exact Hm|]. split; [exact Hl|]. split.
  { unfold Notebook.model_path. rewrite Hm. cbn [option_map join fold_left]. now rewrite Hw. }
  unfold descendant. rewrite Cm, Cl, Cw, !list_prefix_app_l.
  repeat split; try reflexivity.
  intros E. apply (f_equal (components cwd)) in E. rewrite Cm, Cl in E.
  apply app_inv_head in E. discriminate.
Qed.

End ModelFiles.

Section ModelNames.
Import Text PosixPath.

Lemma string_of_uint_no_underscore d :
  Forall (fun c => c <> "_"%char) (list_ascii_of_string (NilEmpty.string_of_uint d)).
Proof.
  induction d; cbn [NilEmpty.string_of_uint list_ascii_of_string];
    constructor; trivial; discriminate.
Qed.

Lemma str_int_no_underscore n :
  Forall (fun c => c <> "_"%char) (list_ascii_of_string (Notebook.str_int n)).
Proof.
  unfold Notebook.str_int. destruct (Z.to_int n) as [d|d]; cbn [NilEmpty.string_of_int].
  - apply string_of_uint_no_underscore.
  - cbn [list_ascii_of_string]. constructor; [discriminate|apply string_of_uint_no_underscore].
Qed.

Lemma str_int_inj n m : Notebook.str_int n = Notebook.str_int m -> n = m.
Proof.
  unfold Notebook.str_int. intros H.
  apply (f_equal NilEmpty.int_of_string) in H. rewrite !NilEmpty.isi in H.
  injection H as H. apply (f_equal Z.of_int) in H. now rewrite !DecimalZ.of_to in H.
Qed.

(** Two texts cut at the first occurrence of a character. *)
Lemma cut_at_char x a a' r r' :
  Forall (fun c => c <> x) (list_ascii_of_string a) ->
  Forall (fun c => c <> x) (list_ascii_of_string a') ->
  (a ++ String x r = a' ++ String x r')%string -> a = a' /\ r = r'.
Proof.
  revert a'. induction a as [|c a IH]; intros [|c' a'] Ha Ha' H;
    cbn [String.append list_ascii_of_string] in *.
  - now injection H.
  - injection H as <- _. inversion Ha'. congruence.
  - injection H as -> _. inversion Ha. congruence.
  - injection H as -> H. inversion Ha. inversion Ha'. subst.
    destruct (IH a') as [-> ->]; trivial. now split.
Qed.

Lemma format_model_name_inj seed len seed' len' :
  Notebook.format_model_name seed len = Notebook.format_model_name seed' len' ->
  seed = seed' /\ len = len'.
Proof.
  unfold Notebook.format_model_name. intros H.
  apply append_inj_l in H.
  change ("_tl" ++ Notebook.str_int len)%string
    with (String "_" ("tl" ++ Notebook.str_int len))%string in H.
  change ("_tl" ++ Notebook.str_int len')%string
    with (String "_" ("tl" ++ Notebook.str_int len'))%string in H.
  apply cut_at_char in H; try apply str_int_no_underscore.
  destruct H as [Hs Hl]. apply append_inj_l in Hl.
  split; now apply str_int_inj.
Qed.

(** X18.  Two settings that differ in the seed or in the track length
    have two different weights files and two different loss files: a
    training run never overwrites the files of another setting. *)
Theorem settings_have_their_own_files cwd home ROOT_DIR seed len seed' len' :
  isabs cwd = true ->
  seed <> seed' \/ len <> len' ->
  Notebook.model_path cwd home ROOT_DIR (Notebook.format_model_name seed len)
  <> Notebook.model_path cwd home ROOT_DIR (Notebook.format_model_name seed' len') /\
  Notebook.loss_path cwd home ROOT_DIR (Notebook.format_model_name seed len)
  <> Notebook.loss_path cwd home ROOT_DIR (Notebook.format_model_name seed' len').
Proof.
  intros Hcwd Hdiff.
  assert (Hinj : Notebook.model_path cwd home ROOT_DIR (Notebook.format_model_name seed len)
                 = Notebook.model_path cwd home ROOT_DIR (Notebook.format_model_name seed' len')
                 \/ Notebook.loss_path cwd home ROOT_DIR (Notebook.format_model_name seed len)
                    = Notebook.loss_path cwd home ROOT_DIR
                        (Notebook.format_model_name seed' len') ->
                 seed = seed' /\ len = len').
  { intros H. apply format_model_name_inj.
    set (name := Notebook.format_model_name seed len) in *.
    set (name' := Notebook.format_model_name seed' len') in *.
    assert (Hname : slash_free name) by apply format_model_name_slash_free.
    assert (Hname' : slash_free name') by apply format_model_name_slash_free.
    assert (P : forall n ext, slash_free n -> slash_free ext -> 2 <= String.length ext ->
                String.eqb ext ".." = false ->
                exists d, Notebook.MODEL_DIR cwd home ROOT_DIR = Some d /\
                          join d [(n ++ ext)%string] = (d ++ "/" ++ n ++ ext)%string).
    { intros n ext H1 H2 H3 H4.
      destruct (model_file_path cwd Hcwd home ROOT_DIR n ext H1 H2 H3 H4) as (d & Hd & J & _).
      now exists d. }
    destruct (P name ".h5" Hname eq_refl) as (d & Hd & Jm); [cbn; lia|reflexivity|].
    assert (Q : forall n ext, slash_free n -> slash_free ext -> 2 <= String.length ext ->
                String.eqb ext ".." = false ->
                join d [(n ++ ext)%string] = (d ++ "/" ++ n ++ ext)%string).
    { intros n ext H1 H2 H3 H4. destruct (P n ext H1 H2 H3 H4) as (d' & Hd' & J).
      rewrite Hd in Hd'. now injection Hd' as <-. }
    unfold Notebook.model_path, Notebook.loss_path in H. rewrite Hd in H.
    cbn [option_map] in H.
    rewrite !Q in H by first [assumption | reflexivity | cbn; lia].
    assert (E : forall ext, (d ++ "/" ++ name ++ ext = d ++ "/" ++ name' ++ ext)%string ->
                            name = name').
    { intros ext E. apply (append_inj_l d) in E. apply (append_inj_l "/") in E.
      now apply append_inj_r in E. }
    destruct H as [H|H].
    - apply (E ".h5"). congruence.
    - apply (E ".npz"). congruence. }
  split; intros E; [destruct (Hinj (or_introl E))|destruct (Hinj (or_intror E))]; tauto.
Qed.

(** X19.  With an absolute ROOT_DIR, as the one the notebook sets,
    the two directories and the paths handed to the callbacks are the
    same wherever the notebook runs and whoever runs it: they are the
    normal form of ROOT_DIR/models/. and ROOT_DIR/logs/. *)
Theorem absolute_root_fixes_the_directories cwd cwd' home home' ROOT_DIR model_name :
  isabs ROOT_DIR = true ->
  Notebook.MODEL_DIR cwd home ROOT_DIR = Some (normpath (join ROOT_DIR ["models"; "."])) /\
  Notebook.LOG_DIR cwd home ROOT_DIR = Some (normpath (join ROOT_DIR ["logs"; "."])) /\
  Notebook.MODEL_DIR cwd home ROOT_DIR = Notebook.MODEL_DIR cwd' home' ROOT_DIR /\
  Notebook.LOG_DIR cwd home ROOT_DIR = Notebook.LOG_DIR cwd' home' ROOT_DIR /\
  Notebook.callback_paths cwd home ROOT_DIR model_name
  = Notebook.callback_paths cwd' home' ROOT_DIR model_name.
Proof.
  intros Hroot.
  assert (Habs : forall c sub, abspath c (join ROOT_DIR [sub; "."])
                               = normpath (join ROOT_DIR [sub; "."]) \/ starts_with "/" sub = true).
  { intros c sub. destruct (starts_with "/" sub) eqn:Hs; [now right|left].
    unfold abspath, abs_of. cbn [join fold_left].
    now rewrite (isabs_join2 _ "." eq_refl), (isabs_join2 _ sub Hs), Hroot. }
  assert (Hm : forall c h, Notebook.MODEL_DIR c h ROOT_DIR
                           = Some (normpath (join ROOT_DIR ["models"; "."]))).
  { intros c h. unfold Notebook.MODEL_DIR. rewrite PREFIX_dot. cbn [option_map].
    now destruct (Habs c "models") as [->|]. }
  assert (Hl : forall c h, Notebook.LOG_DIR c h ROOT_DIR
                           = Some (normpath (join ROOT_DIR ["logs"; "."]))).
  { intros c h. unfold Notebook.LOG_DIR. rewrite PREFIX_dot. cbn [option_map].
    now destruct (Habs c "logs") as [->|]. }
  repeat split.
  - apply Hm.
  - apply Hl.
  - now rewrite !Hm.
  - now rewrite !Hl.
  - unfold Notebook.callback_paths, Notebook.model_path. now rewrite !Hm, !Hl.
Qed.

End ModelNames.

Lemma model_files_are_siblings_witness :
  PosixPath.isabs "/notebooks" = true /\
  exists model_dir,
    Notebook.MODEL_DIR "/notebooks" "/root" Notebook.default_ROOT_DIR = Some model_dir /\
    Notebook.loss_path "/notebooks" "/root" Notebook.default_ROOT_DIR
      (Notebook.format_model_name Notebook.train_seed Notebook.min_track_length)
    = Some (model_dir ++ "/tracking_model_seed1_tl9.npz")%string /\
    PosixPath.dirname (model_dir ++ "/tracking_model_seed1_tl9.npz") = model_dir.
Proof.
  split; [reflexivity|].
  destruct (model_files_are_siblings "/notebooks" eq_refl "/root" Notebook.default_ROOT_DIR
              Notebook.train_seed Notebook.min_track_length)
    as (d & Hd & _ & Hl & _ & Hdir & _).
  exists d. split; [exact Hd|]. split; [exact Hl|exact Hdir].
Defined.

Lemma models_and_logs_are_apart_witness :
  PosixPath.isabs "/notebooks" = true /\
  Text.slash_free "tracking_model_seed1_tl9" /\
  exists model_dir log_dir,
    Notebook.MODEL_DIR "/notebooks" "/root" Notebook.default_ROOT_DIR = Some model_dir /\
    Notebook.LOG_DIR "/notebooks" "/root" Notebook.default_ROOT_DIR = Some log_dir /\
    model_dir <> log_dir /\
    PosixPath.descendant "/notebooks" model_dir log_dir = false.
Proof.
  split; [reflexivity|]. split; [reflexivity|].
  destruct (models_and_logs_are_apart "/notebooks" eq_refl "/root" Notebook.default_ROOT_DIR
              "tracking_model_seed1_tl9" eq_refl)
    as (m & l & w & Hm & Hl & _ & Hne & Hml & _).
  exists m, l. repeat split; assumption.
Defined.

Lemma settings_have_their_own_files_witness :
  PosixPath.isabs "/notebooks" = true /\
  Notebook.model_path "/notebooks" "/root" Notebook.default_ROOT_DIR
    (Notebook.format_model_name 1 9)
  <> Notebook.model_path "/notebooks" "/root" Notebook.default_ROOT_DIR
       (Notebook.format_model_name 2 9).
Proof.
  split; [reflexivity|].
  apply (settings_have_their_own_files "/notebooks" "/root" Notebook.default_ROOT_DIR
           1 9 2 9 eq_refl).
  left. discriminate.
Defined.

Lemma absolute_root_fixes_the_directories_witness :
  PosixPath.isabs Notebook.default_ROOT_DIR = true /\
  Notebook.MODEL_DIR "/notebooks" "/root" Notebook.default_ROOT_DIR
  = Notebook.MODEL_DIR "/home/user/work" "/home/user" Notebook.default_ROOT_DIR.
Proof.
  split; [reflexivity|].
  apply (absolute_root_fixes_the_directories "/notebooks" "/home/user/work" "/root"
           "/home/user" Notebook.default_ROOT_DIR "tracking_model_seed1_tl9" eq_refl).
Defined.

(** ** The notebook: the data file *)

Section DataFile.
Import Text PosixPath.

Lemma rstrip_char_head c h :
  rstrip_char c (String c h) = "" \/ exists r, rstrip_char c (String c h) = String c r.
Proof.
  cbn [rstrip_char]. destruct (rstrip_char c h) as [|b r].
  - left. now rewrite Ascii.eqb_refl.
  - right. now eexists.
Qed.

(** X20.  Whatever the home directory, DATA_FILE is the file
    combined_training_data.trks in the directory .keras/datasets of the
    home, a trailing slash of which is dropped: its directory part is
    DATA_DIR, its last component is the name cell 6 saved the training
    portion under, and it is absolute when the home is. *)
Theorem data_file_location (home : string) :
  Notebook.DATA_FILE home
  = (rstrip_char slash home ++ "/.keras/datasets/combined_training_data.trks")%string /\
  dirname (Notebook.DATA_FILE home) = Notebook.DATA_DIR home /\
  basename (Notebook.DATA_FILE home) = Notebook.filename_train /\
  (isabs home = true -> isabs (Notebook.DATA_FILE home) = true).
Proof.
  assert (E : Notebook.DATA_FILE home
              = (rstrip_char slash home ++ "/.keras/datasets/combined_training_data.trks")%string).
  { rewrite DATA_FILE_eq, DATA_DIR_eq, append_assoc. reflexivity. }
  split; [exact E|]. split; [apply dirname_DATA_FILE|]. split.
  - rewrite DATA_FILE_eq. unfold basename.
    rewrite split_char_app, (split_char_slash_free Notebook.filename_train eq_refl).
    apply last_last.
  - intros Habs. rewrite E. unfold isabs, starts_with in *.
    apply prefix_cons_slash in Habs. destruct Habs as [h ->].
    destruct (rstrip_char_head slash h) as [->|[r ->]]; [reflexivity|].
    exact (prefix_app "/" (r ++ "/.keras/datasets/combined_training_data.trks")).
Qed.

End DataFile.

(** ** The notebook: what creating the directories leaves behind *)

Section DirectoriesExceptions.
Import Notebook.

Variable FS : Type.
Variable makedirs : string -> FS -> FS * option exn.

(** What one turn of the loop of cell 8 answers, by what [os.makedirs] does. *)
Lemma make_directory_cases d fs :
  exists fs1, fst (makedirs d fs) = fs1 /\ fst (make_directory makedirs d fs) = fs1 /\
    (snd (makedirs d fs) = Some (OSError EEXIST) /\ snd (make_directory makedirs d fs) = None
     \/ snd (makedirs d fs) <> Some (OSError EEXIST)
        /\ snd (make_directory makedirs d fs) = snd (makedirs d fs)).
Proof.
  unfold make_directory, try_except_OSError, guard_race, raise, pass.
  destruct (makedirs d fs) as [fs1 [[errno|name]|]]; exists fs1; cbn [fst snd].
  - destruct (errno =? EEXIST)%Z eqn:E; cbn [negb fst snd].
    + apply Z.eqb_eq in E. subst. tauto.
    + apply Z.eqb_neq in E. repeat split. right. split; [congruence|reflexivity].
  - repeat split. right. split; [discriminate|reflexivity].
  - repeat split. right. split; [discriminate|reflexivity].
Qed.

(** X21.  Whatever [os.makedirs] does, cell 8 never raises an OSError
    with the number EEXIST; an exception that leaves the cell is one
    that [os.makedirs] raised, for the model directory or for the log
    directory; any exception but that one raised for the model directory
    leaves the cell at once, without the log directory being tried; and
    the cell ends in peace only after both turns of the loop did. *)
Theorem only_other_errors_escape (model_dir log_dir : string) (fs : FS) :
  let r := create_directories makedirs model_dir log_dir fs in
  snd r <> Some (OSError EEXIST) /\
  (forall e, snd r = Some e ->
     snd (makedirs model_dir fs) = Some e \/
     exists fs1, make_directory makedirs model_dir fs = (fs1, None) /\
                 snd (makedirs log_dir fs1) = Some e) /\
  (forall e, snd (makedirs model_dir fs) = Some e -> e <> OSError EEXIST ->
             r = (fst (makedirs model_dir fs), Some e)) /\
  (snd r = None ->
   exists fs1, make_directory makedirs model_dir fs = (fs1, None) /\
               make_directory makedirs log_dir fs1 = (fst r, None)).
Proof.
  intros r. subst r. unfold create_directories. cbn [make_directories]. unfold seq_action.
  destruct (make_directory_cases model_dir fs) as (fs1 & F1 & F1' & C1).
  destruct (make_directory makedirs model_dir fs) as [fs1' [e1|]] eqn:M1;
    cbn [fst snd] in F1', C1; subst fs1'.
  - destruct C1 as [[_ C1]|[N1 C1]]; [discriminate|].
    cbn [fst snd]. repeat split.
    + congruence.
    + intros e [= <-]. now left.
    + intros e He Hne. rewrite <- F1. congruence.
    + discriminate.
  - destruct (make_directory_cases log_dir fs1) as (fs2 & F2 & F2' & C2).
    unfold pass.
    destruct (make_directory makedirs log_dir fs1) as [fs2' [e2|]] eqn:M2;
      cbn [fst snd] in F2', C2 |- *; subst fs2'.
    + destruct C2 as [[_ C2]|[N2 C2]]; [discriminate|].
      repeat split.
      * congruence.
      * intros e [= <-]. right. exists fs1. split; [reflexivity|]. now symmetry.
      * intros e He Hne. destruct C1 as [[C1 _]|[_ C1]]; congruence.
      * discriminate.
    + repeat split.
      * discriminate.
      * discriminate.
      * intros e He Hne. destruct C1 as [[C1 _]|[_ C1]]; congruence.
      * intros _. exists fs1. split; [reflexivity|exact M2].
Qed.

End DirectoriesExceptions.

Section DirectoriesContract.
Import Notebook.

Variable FS : Type.
Variable makedirs : string -> FS -> FS * option exn.
Variable path_exists : string -> FS -> bool.

(** What is assumed of [os.makedirs]: on a path that exists it raises
    EEXIST and changes nothing; when it returns, or raises EEXIST, the
    path exists, and so does whatever existed before. *)
Hypothesis makedirs_existing :
  forall d fs, path_exists d fs = true -> makedirs d fs = (fs, Some (OSError EEXIST)).
Hypothesis makedirs_done :
  forall d fs fs', (makedirs d fs = (fs', None) \/ makedirs d fs = (fs', Some (OSError EEXIST))) ->
                   path_exists d fs' = true /\
                   forall d', path_exists d' fs = true -> path_exists d' fs' = true.

Lemma make_directory_done d fs fs' :
  make_directory makedirs d fs = (fs', None) ->
  path_exists d fs' = true /\
  forall d', path_exists d' fs = true -> path_exists d' fs' = true.
Proof.
  intros H. apply (makedirs_done d fs fs').
  destruct (make_directory_cases FS makedirs d fs) as (fs1 & F & F' & C).
  rewrite H in F', C. cbn [fst snd] in F', C.
  destruct (makedirs d fs) as [fs0 e]. cbn [fst snd] in F, C. subst.
  destruct C as [[-> _]|[_ <-]]; tauto.
Qed.

Lemma make_directory_existing d fs :
  path_exists d fs = true -> make_directory makedirs d fs = (fs, None).
Proof.
  intros H. rewrite (@make_directory_OSError FS makedirs d fs fs EEXIST).
  - reflexivity.
  - now apply makedirs_existing.
Qed.

(** X22.  If [os.makedirs] raises EEXIST on a path that exists and
    changes nothing then, and leaves the path in place whenever it
    returns or raises EEXIST, taking nothing away: after cell 8 has
    ended in peace both paths exist, and running the cell again ends in
    peace too and changes nothing. *)
Theorem creating_directories_twice (model_dir log_dir : string) (fs fs' : FS) :
  create_directories makedirs model_dir log_dir fs = (fs', None) ->
  path_exists model_dir fs' = true /\
  path_exists log_dir fs' = true /\
  create_directories makedirs model_dir log_dir fs' = (fs', None).
Proof.
  unfold create_directories. cbn [make_directories]. unfold seq_action, pass.
  destruct (make_directory makedirs model_dir fs) as [fs1 [e1|]] eqn:M1; [discriminate|].
  destruct (make_directory makedirs log_dir fs1) as [fs2 [e2|]] eqn:M2; [discriminate|].
  intros [= ->].
  destruct (make_directory_done _ _ _ M1) as [E1 K1].
  destruct (make_directory_done _ _ _ M2) as [E2 K2].
  assert (Em : path_exists model_dir fs' = true) by now apply K2.
  repeat split; trivial.
  now rewrite (make_directory_existing _ _ Em), (make_directory_existing _ _ E2).
Qed.

End DirectoriesContract.

Lemma disk_makedirs_existing d fs :
  Notebook.disk_exists d fs = true ->
  Notebook.disk_makedirs d fs = (fs, Some (Notebook.OSError Notebook.EEXIST)).
Proof. unfold Notebook.disk_exists, Notebook.disk_makedirs. now intros ->. Qed.

Lemma disk_makedirs_done d fs fs' :
  Notebook.disk_makedirs d fs = (fs', None)
  \/ Notebook.disk_makedirs d fs = (fs', Some (Notebook.OSError Notebook.EEXIST)) ->
  Notebook.disk_exists d fs' = true /\
  forall d', Notebook.disk_exists d' fs = true -> Notebook.disk_exists d' fs' = true.
Proof.
  unfold Notebook.disk_exists, Notebook.disk_makedirs.
  destruct (existsb (String.eqb d) (Notebook.existing fs)) eqn:E.
  - intros [H|H]; [discriminate|]. injection H as <-. now split.
  - destruct (existsb _ (Notebook.read_only fs)).
    + intros [H|H]; discriminate.
    + intros [H|H]; [|discriminate]. injection H as <-. cbn [Notebook.existing existsb].
      rewrite String.eqb_refl. split; [reflexivity|].
      intros d' ->. apply orb_true_r.
Qed.

Lemma creating_directories_twice_witness :
  Notebook.create_directories Notebook.disk_makedirs "/data/models" "/data/logs"
    Notebook.empty_disk
  = ({| Notebook.existing := ["/data/logs"; "/data/models"]; Notebook.read_only := [] |}, None) /\
  Notebook.create_directories Notebook.disk_makedirs "/data/models" "/data/logs"
    {| Notebook.existing := ["/data/logs"; "/data/models"]; Notebook.read_only := [] |}
  = ({| Notebook.existing := ["/data/logs"; "/data/models"]; Notebook.read_only := [] |}, None).
Proof.
  split; [reflexivity|].
  apply (creating_directories_twice Notebook.disk Notebook.disk_makedirs Notebook.disk_exists
           disk_makedirs_existing disk_makedirs_done
           "/data/models" "/data/logs" Notebook.empty_disk).
  reflexivity.
Defined.
